(** * Engine API client (lib/ethclient/engineclient.go)

    A shallow embedding of the payload schema converter
    ([ConvertExecutableDataToRethPayloadV3], [copyTransactions],
    [copyWithdrawals]) and of the three Engine API calls
    ([NewPayloadV3], [ForkchoiceUpdatedV3], [GetPayloadV3]); then of the
    durations of the node configuration (e2e/app/reth/types.go) and of the
    deployment and the tests of the gas contracts (e2e/app/gaspump.go).

    Go slices and pointers are references into a store, and several of the
    properties below are about which storage a result shares with its
    input.  The store is therefore explicit: a heap of cells, addressed by
    allocation order, threaded through the converter by a small
    state-and-failure monad. *)

From Stdlib Require Import ZArith.
From Stdlib.Strings Require Import Byte.
From stdpp Require Import base option list strings gmap.

(** ** The store *)

Module Mem.

(** An address names one allocation (a backing array or a pointee). *)
Abbreviation loc := nat (only parsing).

(** A Go pointer: nil, or the address of its pointee. *)
Abbreviation ptr := (option nat) (only parsing).

(** A Go slice header: the backing array, the position of element 0 in
    it, and the length.  The capacity is left out, the client never reads
    it.  A possibly-nil slice is an [option slice], [None] being nil. *)
Record slice := Slice { s_arr : loc; s_off : nat; s_len : nat }.

(** types.Withdrawal of go-ethereum: four value fields. *)
Record Withdrawal := MkWithdrawal
  { Index : Z; Validator : Z; Address : Z; Amount : Z }.

Inductive cell :=
| CBytes (bs : list byte)             (* backing array of a []byte *)
| CSlices (ss : list (option slice))  (* backing array of a [][]byte *)
| CPtrs (ps : list ptr)               (* backing array of a []*Withdrawal *)
| CU64 (v : Z)                        (* pointee of a *uint64 *)
| CBig (v : Z)                        (* pointee of a *big.Int *)
| CWithdrawal (w : Withdrawal)        (* pointee of a *types.Withdrawal *)
| CWitness (w : list byte).           (* pointee of a *types.ExecutionWitness *)

(** Allocation appends: the next address is the length of the heap. *)
Abbreviation heap := (list cell) (only parsing).

(** Computations that read and write the heap and may get stuck (a nil
    dereference, an index out of range, a cell of the wrong kind). *)
Definition M (A : Type) := heap -> option (A * heap).

Definition ret {A} (x : A) : M A := fun h => Some (x, h).
Definition bind {A B} (c : M A) (k : A -> M B) : M B :=
  fun h => match c h with Some (x, h') => k x h' | None => None end.
Definition lift {A} (f : heap -> option A) : M A :=
  fun h => match f h with Some x => Some (x, h) | None => None end.

Definition alloc (c : cell) : M loc := fun h => Some (List.length h, h ++ [c]).
Definition store (a : loc) (c : cell) : M unit :=
  fun h => if decide (a < length h) then Some (tt, <[a := c]> h) else None.

(** *** Reading through a slice or a pointer *)

Definition window {A} (s : slice) (l : list A) : option (list A) :=
  if decide (s_off s + s_len s <= length l)
  then Some (take (s_len s) (drop (s_off s) l)) else None.

(** The elements of a []byte. *)
Definition read_bytes (h : heap) (s : slice) : option (list byte) :=
  match h !! s_arr s with Some (CBytes l) => window s l | _ => None end.

(** The elements (slice headers) of a [][]byte. *)
Definition read_slices (h : heap) (s : slice) : option (list (option slice)) :=
  match h !! s_arr s with Some (CSlices l) => window s l | _ => None end.

(** The elements (pointers) of a []*Withdrawal. *)
Definition read_ptrs (h : heap) (s : slice) : option (list ptr) :=
  match h !! s_arr s with Some (CPtrs l) => window s l | _ => None end.

Definition load_u64 (h : heap) (a : loc) : option Z :=
  match h !! a with Some (CU64 v) => Some v | _ => None end.
Definition load_big (h : heap) (a : loc) : option Z :=
  match h !! a with Some (CBig v) => Some v | _ => None end.

(** s[i] for a [][]byte, with Go's bounds check. *)
Definition index_slices (s : slice) (i : nat) : M (option slice) :=
  lift (fun h => if decide (i < s_len s)
                 then l ← read_slices h s; l !! i else None).

(** s[i] for a []*Withdrawal. *)
Definition index_ptrs (s : slice) (i : nat) : M ptr :=
  lift (fun h => if decide (i < s_len s)
                 then l ← read_ptrs h s; l !! i else None).

(** s[i] = x for a [][]byte. *)
Definition set_index_slices (s : slice) (i : nat) (x : option slice) : M unit :=
  fun h => match h !! s_arr s with
           | Some (CSlices l) =>
               if decide (i < s_len s /\ s_off s + s_len s <= length l)
               then store (s_arr s) (CSlices (<[s_off s + i := x]> l)) h
               else None
           | _ => None
           end.

(** s[i] = p for a []*Withdrawal. *)
Definition set_index_ptrs (s : slice) (i : nat) (p : ptr) : M unit :=
  fun h => match h !! s_arr s with
           | Some (CPtrs l) =>
               if decide (i < s_len s /\ s_off s + s_len s <= length l)
               then store (s_arr s) (CPtrs (<[s_off s + i := p]> l)) h
               else None
           | _ => None
           end.

(** What a reader of a possibly-nil []byte sees: nil and empty both hold
    no bytes. *)
Definition bytes_of (h : heap) (s : option slice) : option (list byte) :=
  match s with None => Some [] | Some t => read_bytes h t end.

(** What a reader of a [][]byte sees: the bytes of every element. *)
Definition txs_of (h : heap) (s : option slice) : option (list (list byte)) :=
  match s with
  | None => Some []
  | Some t => l ← read_slices h t; mapM (bytes_of h) l
  end.

(** The element headers of a possibly-nil [][]byte. *)
Definition tx_headers (h : heap) (s : option slice) : option (list (option slice)) :=
  match s with None => Some [] | Some t => read_slices h t end.

(** The elements of a possibly-nil []*Withdrawal. *)
Definition wds_of (h : heap) (s : option slice) : option (list ptr) :=
  match s with None => Some [] | Some t => read_ptrs h t end.

(** What a reader of an optional *uint64 or *big.Int sees: [Some None]
    for nil, [Some (Some v)] for a pointer to v, [None] if dangling. *)
Definition u64_of (h : heap) (p : ptr) : option (option Z) :=
  match p with None => Some None | Some a => Some <$> load_u64 h a end.
Definition big_of (h : heap) (p : ptr) : option (option Z) :=
  match p with None => Some None | Some a => Some <$> load_big h a end.

(** Go's len: a nil slice has length 0. *)
Definition len (s : option slice) : nat :=
  match s with None => 0 | Some t => s_len t end.

(** Two heaps that hold the same cells at the addresses in [P]. *)
Definition agree (P : loc -> Prop) (h1 h2 : heap) : Prop :=
  forall a, P a -> h1 !! a = h2 !! a.

End Mem.

Import Mem.

Notation "'let*' x ':=' c 'in' k" := (Mem.bind c (fun x => k))
  (at level 10, x name, c at level 100, k at level 200).
Notation "c ';;;' k" := (Mem.bind c (fun _ => k))
  (at level 100, k at level 200, right associativity).

(** Go's allocating expressions, as the converter uses them. *)

(** make([][]byte, n): n nil elements. *)
Definition make_slices (n : nat) : M slice :=
  let* a := alloc (CSlices (replicate n None)) in Mem.ret (Slice a 0 n).

(** make([]*types.Withdrawal, n): n nil elements. *)
Definition make_ptrs (n : nat) : M slice :=
  let* a := alloc (CPtrs (replicate n None)) in Mem.ret (Slice a 0 n).

(** append([]byte(nil), tx...): nothing to append leaves the nil slice as
    it is; otherwise the bytes go to a new backing array. *)
Definition append_nil (tx : slice) : M (option slice) :=
  let* bs := lift (fun h => read_bytes h tx) in
  match bs with
  | [] => Mem.ret None
  | _ :: _ => let* a := alloc (CBytes bs) in Mem.ret (Some (Slice a 0 (length bs)))
  end.

(** ** The data model *)

(** go-ethereum's common package: fixed-size byte arrays, passed by value. *)
Module common.
Definition Hash := Z.       (* a [32]byte value *)
Definition Address := Z.    (* a [20]byte value *)
End common.

(** The types and constants of go-ethereum's beacon/engine package that the
    client uses. *)
Module engine.

Definition VALID : string := "VALID".
Definition INVALID : string := "INVALID".
Definition SYNCING : string := "SYNCING".
Definition ACCEPTED : string := "ACCEPTED".

Record ExecutableData := MkExecutableData
  { ParentHash : common.Hash;
    FeeRecipient : common.Address;
    StateRoot : common.Hash;
    ReceiptsRoot : common.Hash;
    LogsBloom : option slice;         (* []byte *)
    Random : common.Hash;
    Number : Z;
    GasLimit : Z;
    GasUsed : Z;
    Timestamp : Z;
    ExtraData : option slice;         (* []byte *)
    BaseFeePerGas : ptr;              (* *big.Int *)
    BlockHash : common.Hash;
    Transactions : option slice;      (* [][]byte *)
    Withdrawals : option slice;       (* []*types.Withdrawal *)
    BlobGasUsed : ptr;                (* *uint64 *)
    ExcessBlobGas : ptr;              (* *uint64 *)
    ExecutionWitness : ptr }.         (* *types.ExecutionWitness *)

Record PayloadStatusV1 := MkPayloadStatusV1
  { Status : string;
    LatestValidHash : option common.Hash;
    ValidationError : option string }.

Definition PayloadID := Z.            (* an [8]byte value *)

Record ForkChoiceResponse := MkForkChoiceResponse
  { PayloadStatus : PayloadStatusV1;
    PayloadID_ : option PayloadID }.

Record ForkchoiceStateV1 := MkForkchoiceStateV1
  { HeadBlockHash : common.Hash; SafeBlockHash : common.Hash; FinalizedBlockHash : common.Hash }.

Record PayloadAttributes := MkPayloadAttributes
  { pa_Timestamp : Z;
    pa_Random : common.Hash;
    SuggestedFeeRecipient : common.Address;
    pa_Withdrawals : option slice;
    BeaconRoot : option common.Hash }.

Record ExecutionPayloadEnvelope := MkExecutionPayloadEnvelope
  { ExecutionPayload : option ExecutableData;
    BlockValue : ptr;
    Override : bool }.

(** The zero values that a Go variable declaration or an empty composite
    literal yields. *)
Definition zero_PayloadStatusV1 : PayloadStatusV1 :=
  MkPayloadStatusV1 "" None None.
Definition zero_ForkChoiceResponse : ForkChoiceResponse :=
  MkForkChoiceResponse zero_PayloadStatusV1 None.

End engine.

Record RethPayloadV3 := MkRethPayloadV3
  { ParentHash : common.Hash;
    FeeRecipient : common.Address;
    StateRoot : common.Hash;
    ReceiptsRoot : common.Hash;
    LogsBloom : option slice;
    Random : common.Hash;
    Number : Z;
    GasLimit : Z;
    GasUsed : Z;
    Timestamp : Z;
    ExtraData : option slice;
    BaseFeePerGas : ptr;
    BlockHash : common.Hash;
    Transactions : option slice;
    Withdrawals : option slice;
    BlobGasUsed : ptr;
    ExcessBlobGas : ptr;
    ExecutionWitness : ptr }.

(** ** The payload schema converter *)

(** The body of [for i, tx := range transactions], from index [i] with [k]
    iterations to go. *)
Fixpoint copyTransactions_range (transactions copied : slice) (i k : nat) : M unit :=
  match k with
  | 0 => Mem.ret tt
  | S k' =>
      let* tx := index_slices transactions i in
      match tx with
      | Some t => let* c := append_nil t in set_index_slices copied i c
      | None => Mem.ret tt
      end ;;;
      copyTransactions_range transactions copied (S i) k'
  end.

Definition copyTransactions (transactions : option slice) : M (option slice) :=
  match transactions with
  | None => let* a := alloc (CSlices []) in Mem.ret (Some (Slice a 0 0))
  | Some src =>
      let* copied := make_slices (s_len src) in
      copyTransactions_range src copied 0 (s_len src) ;;;
      Mem.ret (Some copied)
  end.

(** The body of [for i, withdrawal := range withdrawals]. *)
Fixpoint copyWithdrawals_range (withdrawals copied : slice) (i k : nat) : M unit :=
  match k with
  | 0 => Mem.ret tt
  | S k' =>
      let* withdrawal := index_ptrs withdrawals i in
      match withdrawal with
      | Some _ => set_index_ptrs copied i withdrawal
      | None => Mem.ret tt
      end ;;;
      copyWithdrawals_range withdrawals copied (S i) k'
  end.

Definition copyWithdrawals (withdrawals : option slice) : M (option slice) :=
  match withdrawals with
  | None => let* a := alloc (CPtrs []) in Mem.ret (Some (Slice a 0 0))
  | Some src =>
      let* copied := make_ptrs (s_len src) in
      copyWithdrawals_range src copied 0 (s_len src) ;;;
      Mem.ret (Some copied)
  end.

(** new(big.Int).Set(x): a new big.Int that holds the value of x. *)
Definition new_big_set (x : loc) : M ptr :=
  let* z := alloc (CBig 0) in
  let* v := lift (fun h => load_big h x) in
  store z (CBig v) ;;;
  Mem.ret (Some z).

(** p = new(uint64); *p = *x. *)
Definition new_u64_set (x : loc) : M ptr :=
  let* p := alloc (CU64 0) in
  let* v := lift (fun h => load_u64 h x) in
  store p (CU64 v) ;;;
  Mem.ret (Some p).

Definition ConvertExecutableDataToRethPayloadV3 (ed : engine.ExecutableData)
  : M RethPayloadV3 :=
  let* baseFee :=
    match engine.BaseFeePerGas ed with
    | Some x => new_big_set x
    | None => Mem.ret None
    end in
  let* blobGasUsed :=
    match engine.BlobGasUsed ed with
    | Some x => new_u64_set x
    | None => Mem.ret None
    end in
  let* excessBlobGas :=
    match engine.ExcessBlobGas ed with
    | Some x => new_u64_set x
    | None => Mem.ret None
    end in
  let* txs := copyTransactions (engine.Transactions ed) in
  let* wds := copyWithdrawals (engine.Withdrawals ed) in
  Mem.ret {| ParentHash := engine.ParentHash ed;
             FeeRecipient := engine.FeeRecipient ed;
             StateRoot := engine.StateRoot ed;
             ReceiptsRoot := engine.ReceiptsRoot ed;
             LogsBloom := engine.LogsBloom ed;
             Random := engine.Random ed;
             Number := engine.Number ed;
             GasLimit := engine.GasLimit ed;
             GasUsed := engine.GasUsed ed;
             Timestamp := engine.Timestamp ed;
             ExtraData := engine.ExtraData ed;
             BaseFeePerGas := baseFee;
             BlockHash := engine.BlockHash ed;
             Transactions := txs;
             Withdrawals := wds;
             BlobGasUsed := blobGasUsed;
             ExcessBlobGas := excessBlobGas;
             ExecutionWitness := engine.ExecutionWitness ed |}.

(** ** Errors, instrumentation and transport *)

(** Modelled from the spec: the package lib/errors (Wrap, New) is not among
    the sources.  "All wrapped errors carry ... context": an error value is
    the record of the call that built it, a wrapped error keeps the error
    it wraps as its cause, and the attributes are the key/value pairs given
    at the call. *)
Module errors.

Inductive error :=
| External (text : string)      (* an error made outside this package *)
| Wrap (err : error) (msg : string) (attrs : list (string * string))
| New (msg : string) (attrs : list (string * string)).

(** The error directly underneath a wrapped one. *)
Definition cause (e : error) : option error :=
  match e with Wrap c _ _ => Some c | _ => None end.

(** All the attributes an error carries: its own and those of the errors
    it wraps. *)
Fixpoint fields (e : error) : list (string * string) :=
  match e with
  | External _ => []
  | Wrap c _ a => a ++ fields c
  | New _ a => a
  end.

End errors.

(** Modelled from the spec: lib/log and the metrics helpers (latency,
    incError) are not among the sources.  "Every call emits a latency
    measurement and, on failure, an error counter increment, both labeled
    by chain identity and logical endpoint name": what a call leaves behind
    besides its results is a list of log lines and metric updates, in
    program order.  [Latency] is the deferred observation that runs when
    the call returns. *)
Inductive event :=
| LogDebug (msg : string)
| LogWarn (msg : string) (err : errors.error) (attrs : list (string * string))
| IncError (chain endpoint : string)
| Latency (chain endpoint : string).

(** Modelled from the spec: the Wrapper and go-ethereum's rpc.Client are
    not among the sources.  "call(endpointLabel, methodName, params...) ->
    (rawResult, err)", with the result "best-effort decoded even when the
    transport reports an error".  [CallContext] decodes the reply into a
    variable of the caller's choosing and returns the transport error, both
    decided by the remote peer: one entry per result type, giving the final
    content of that variable and the error (nil is [None]). *)
Record rpcClient := MkRpcClient
  { CallContext_status :
      string -> heap -> RethPayloadV3 -> list common.Hash -> option common.Hash ->
      engine.PayloadStatusV1 * option errors.error;
    CallContext_forkchoice :
      string -> engine.ForkchoiceStateV1 -> option engine.PayloadAttributes ->
      engine.ForkChoiceResponse * option errors.error;
    CallContext_envelope :
      string -> engine.PayloadID ->
      engine.ExecutionPayloadEnvelope * option errors.error }.

(** engineClient embeds the Wrapper: the chain tag and the connection. *)
Record engineClient := MkEngineClient { chain : string; cl : rpcClient }.

Definition newPayloadV3 : string := "engine_newPayloadV3".
Definition forkchoiceUpdatedV3 : string := "engine_forkchoiceUpdatedV3".
Definition getPayloadV3 : string := "engine_getPayloadV3".

(** ** The Engine API calls *)

(** The inline status table of NewPayloadV3; a key that is not in a Go map
    reads as false. *)
Definition NewPayloadV3_statusTable : gmap string bool :=
  list_to_map [(engine.VALID, true); (engine.INVALID, true);
               (engine.SYNCING, true); (engine.ACCEPTED, true)].

Definition NewPayloadV3_isStatusOk (status : engine.PayloadStatusV1) : bool :=
  default false (NewPayloadV3_statusTable !! engine.Status status).

Definition NewPayloadV3 (c : engineClient) (params : engine.ExecutableData)
    (versionedHashes : list common.Hash) (beaconRoot : option common.Hash)
  : M ((engine.PayloadStatusV1 * option errors.error) * list event) :=
  let enter :=
    [LogDebug "Entering NewPayloadV3. Converting standard paylod to Seismic Reth payload"] in
  let* rethPayload := ConvertExecutableDataToRethPayloadV3 params in
  let endpoint := "new_payload_v3" in
  let* reply := lift (fun h =>
    Some (CallContext_status (cl c) newPayloadV3 h rethPayload versionedHashes beaconRoot)) in
  let resp := reply.1 in
  let err := reply.2 in
  if NewPayloadV3_isStatusOk resp then
    let warn :=
      match err with
      | Some e => [LogWarn "Ignoring new_payload_v3 error with proper response" e
                     [("status", engine.Status resp)]]
      | None => []
      end in
    Mem.ret ((resp, None), enter ++ warn ++ [Latency (chain c) endpoint])
  else
    match err with
    | Some e =>
        Mem.ret ((engine.zero_PayloadStatusV1, Some (errors.Wrap e "rpc new payload" [])),
                 enter ++ [IncError (chain c) endpoint; Latency (chain c) endpoint])
    | None =>
        Mem.ret ((engine.zero_PayloadStatusV1,
                  Some (errors.New "nil error and unknown status"
                          [("status", engine.Status resp)])),
                 enter ++ [IncError (chain c) endpoint; Latency (chain c) endpoint])
    end.

(** The inline status table of ForkchoiceUpdatedV3. *)
Definition ForkchoiceUpdatedV3_statusTable : gmap string bool :=
  list_to_map [(engine.VALID, true); (engine.INVALID, true);
               (engine.SYNCING, true); (engine.ACCEPTED, false)].

Definition ForkchoiceUpdatedV3_isStatusOk (resp : engine.ForkChoiceResponse) : bool :=
  default false (ForkchoiceUpdatedV3_statusTable
                   !! engine.Status (engine.PayloadStatus resp)).

Definition ForkchoiceUpdatedV3 (c : engineClient) (update : engine.ForkchoiceStateV1)
    (payloadAttributes : option engine.PayloadAttributes)
  : (engine.ForkChoiceResponse * option errors.error) * list event :=
  let endpoint := "forkchoice_updated_v3" in
  let reply := CallContext_forkchoice (cl c) forkchoiceUpdatedV3 update payloadAttributes in
  let resp := reply.1 in
  let err := reply.2 in
  if ForkchoiceUpdatedV3_isStatusOk resp then
    let warn :=
      match err with
      | Some e => [LogWarn "Ignoring forkchoice_updated_v3 error with proper response" e
                     [("status", engine.Status (engine.PayloadStatus resp))]]
      | None => []
      end in
    ((resp, None), warn ++ [Latency (chain c) endpoint])
  else
    match err with
    | Some e =>
        ((engine.zero_ForkChoiceResponse,
          Some (errors.Wrap e "rpc forkchoice updated v3" [])),
         [IncError (chain c) endpoint; Latency (chain c) endpoint])
    | None =>
        ((engine.zero_ForkChoiceResponse,
          Some (errors.New "nil error and unknown status"
                  [("status", engine.Status (engine.PayloadStatus resp))])),
         [IncError (chain c) endpoint; Latency (chain c) endpoint])
    end.

(** The result pointer is nil ([None]) or the address of the decoded
    envelope ([Some]). *)
Definition GetPayloadV3 (c : engineClient) (payloadID : engine.PayloadID)
  : (option engine.ExecutionPayloadEnvelope * option errors.error) * list event :=
  let endpoint := "get_payload_v3" in
  let reply := CallContext_envelope (cl c) getPayloadV3 payloadID in
  let resp := reply.1 in
  let err := reply.2 in
  match err with
  | Some e =>
      ((None, Some (errors.Wrap e "rpc get payload v3" [])),
       [IncError (chain c) endpoint; Latency (chain c) endpoint])
  | None => ((Some resp, None), [Latency (chain c) endpoint])
  end.

(** ** Node configuration: durations (e2e/app/reth/types.go) *)

Module reth.

Local Set Warnings "-register-all".

(** What the TOML decoder hands to UnmarshalTOML in an interface{}: a
    string, an integer (int64, or int), a table (map[string]interface{}),
    or a value of some other Go type, kept by the name that the verb %T
    prints for it. *)
Inductive value :=
| VString (s : string)
| VInt64 (v : Z)
| VInt (v : Z)
| VTable (m : gmap string value)
| VOther (go_type : string).

(** The name that %T prints. *)
Definition type_name (data : value) : string :=
  match data with
  | VString _ => "string"
  | VInt64 _ => "int64"
  | VInt _ => "int"
  | VTable _ => "map[string]interface {}"
  | VOther t => t
  end.

(** int64 arithmetic wraps around. *)
Definition wrap64 (z : Z) : Z := ((z + 2 ^ 63) mod 2 ^ 64 - 2 ^ 63)%Z.

(** time.Second, in nanoseconds. *)
Definition Second : Z := 1000000000.

(** The type switch on 'secs' and on 'nanos': an int64 as it is, an int
    converted to int64, nothing for any other type. *)
Definition as_int64 (v : value) : option Z :=
  match v with
  | VInt64 v => Some v
  | VInt v => Some v
  | _ => None
  end.

Section UnmarshalTOML.

(** time.ParseDuration of the Go library: the duration and the error. *)
Variable ParseDuration : string -> Z * option string.

(** The receiver is a pointer to the Duration: the function takes the
    duration it holds and returns the one it holds afterwards, with the
    error (fmt.Errorf: an error is its message). *)
Definition UnmarshalTOML (d : Z) (data : value) : Z * option string :=
  match data with
  | VString value =>
      let parsed := ParseDuration value in
      match parsed.2 with
      | Some err => (d, Some ("invalid duration string: " +:+ err))
      | None => (parsed.1, None)
      end
  | VTable value =>
      match value !! "secs" with
      | None => (d, Some "missing 'secs' in Duration")
      | Some secs =>
          match value !! "nanos" with
          | None => (d, Some "missing 'nanos' in Duration")
          | Some nanos =>
              match as_int64 secs with
              | None => (d, Some "invalid type for 'secs' in Duration")
              | Some secsInt =>
                  match as_int64 nanos with
                  | None => (d, Some "invalid type for 'nanos' in Duration")
                  | Some nanosInt =>
                      (wrap64 (wrap64 (secsInt * Second) + nanosInt), None)
                  end
              end
          end
      end
  | _ =>
      (d, Some ("invalid type for Duration, expected string or map, got "
                +:+ type_name data))
  end.

End UnmarshalTOML.

(** The range of an int64. *)
Definition int64_range (z : Z) : Prop := (- 2 ^ 63 <= z < 2 ^ 63)%Z.

End reth.

(** ** Deployment of the gas contracts (e2e/app/gaspump.go) *)

Module app.

(** netconf.Chain, as far as the deployment reads it. *)
Record Chain := MkChain { ID : Z; Name : string }.

(** The network of a definition (networkFromDef), by what the deployment
    asks of it: its identifier and the results of its methods OmniEVMChain
    (nothing when there is none) and EVMChains. *)
Record Network := MkNetwork
  { net_ID : string;
    OmniEVMChain : option Chain;
    EVMChains : list Chain }.

(** The definition: def.Testnet.Network and networkFromDef(def). *)
Record Definition_ := MkDefinition
  { Testnet_Network : string;
    network : Network }.

(** types.Receipt, as far as the deployment reads it. *)
Record Receipt := MkReceipt { TxHash : common.Hash; Status : Z }.

(** types.ReceiptStatusSuccessful of go-ethereum. *)
Definition ReceiptStatusSuccessful : Z := 1.

(** params.Ether of go-ethereum, in wei. *)
Definition Ether : Z := 10 ^ 18.

(** bindings.OmniGasStationGasPump. *)
Record GasPump := MkGasPump { ChainID : Z; Addr : common.Address }.

(** txmgr.TxCandidate, with the fields the deployment sets. *)
Record TxCandidate := MkTxCandidate
  { To : common.Address; GasLimit : Z; Value : Z }.

(** What a function returns when it does return, or the panic that ends
    it. *)
Inductive result (A : Type) :=
| Ok (a : A)
| Panic (msg : string).
Arguments Ok {A} a.
Arguments Panic {A} msg.

Section effects.

(** The state of everything outside the program, and the calls a program
    makes to it. *)
Variables (W C : Type).

(** A computation over the world that records its calls and may panic. *)
Definition G (A : Type) := W -> (result A * W) * list C.

Definition gret {A} (a : A) : G A := fun w => ((Ok a, w), []).

Definition gbind {A B} (c : G A) (k : A -> G B) : G B :=
  fun w =>
    match c w with
    | ((Ok a, w'), t) => let r := k a w' in (r.1, t ++ r.2)
    | ((Panic m, w'), t) => ((Panic m, w'), t)
    end.

Definition gpanic {A} (msg : string) : G A := fun w => ((Panic msg, w), []).

(** One call to the outside. *)
Definition ext {A} (c : C) (f : W -> A * W) : G A :=
  fun w => let r := f w in ((Ok r.1, r.2), [c]).

End effects.

Arguments gret {W C A}.
Arguments gbind {W C A B}.
Arguments gpanic {W C A}.
Arguments ext {W C A}.

Section world.

(** The state of everything outside the program, and the handle of a chain
    backend. *)
Variables (W backend : Type).

(** What the deployment does to the outside, in program order. *)
Inductive call :=
| CallBackend (chainID : Z)
| CallDeployGasPump (net : string) (b : backend)
| CallDeployGasStation (net : string) (b : backend) (gasPumps : list GasPump)
| CallSend (b : backend) (funder : common.Address) (candidate : TxCandidate)
| CallLogInfo (msg : string) (attrs : list (string * string)).

(** The collaborators that are not among the sources, as the deployment
    uses them.  The calls that reach outside take the world and return it;
    an error is nil ([None]) or not. *)
Record Env := MkEnv
  { Backend : Z -> W -> (backend * option errors.error) * W;
    gaspump_DeployIfNeeded :
      string -> backend -> W ->
      (common.Address * option Receipt * option errors.error) * W;
    gasstation_DeployIfNeeded :
      string -> backend -> list GasPump -> W ->
      (common.Address * option Receipt * option errors.error) * W;
    Send :
      backend -> common.Address -> TxCandidate -> W ->
      (common.Hash * option Receipt * option errors.error) * W;
    contracts_GasPump : string -> common.Address;
    contracts_GasStation : string -> common.Address;
    eoa_Funder : common.Address;
    anvil_DevAccount8 : common.Address;
    IsEphemeral : string -> bool;
    Hex : Z -> string;            (* Hex() of an address or a hash *)
    show_amount : Z -> string }.  (* a big.Int as the logger prints it *)

Definition log_Info (msg : string) (attrs : list (string * string)) : G W call unit :=
  fun w => ((Ok tt, w), [CallLogInfo msg attrs]).

Variable env : Env.

Definition maybeTxHash (receipt : option Receipt) : string :=
  match receipt with
  | Some r => Hex env (TxHash r)
  | None => "nil"
  end.

(** The loop of deployGasPumps over the chains still to visit. *)
Fixpoint deployGasPumps_range (def : Definition_) (omniEVM : Chain) (chains : list Chain)
  : G W call (option errors.error) :=
  match chains with
  | [] => gret None
  | chain :: rest =>
      if decide (ID chain = ID omniEVM) then deployGasPumps_range def omniEVM rest
      else
        gbind (ext (CallBackend (ID chain)) (Backend env (ID chain))) (fun r =>
        match r.2 with
        | Some err => gret (Some (errors.Wrap err "backend" [("chain", Name chain)]))
        | None =>
            gbind (ext (CallDeployGasPump (Testnet_Network def) r.1)
                     (gaspump_DeployIfNeeded env (Testnet_Network def) r.1)) (fun d =>
            match d.2 with
            | Some err =>
                gret (Some (errors.Wrap err "deploy"
                              [("chain", Name chain); ("tx", maybeTxHash d.1.2)]))
            | None =>
                gbind (log_Info "Gas pump deployed"
                         [("chain", Name chain); ("address", Hex env d.1.1);
                          ("tx", maybeTxHash d.1.2)]) (fun _ =>
                deployGasPumps_range def omniEVM rest)
            end)
        end)
  end.

Definition deployGasPumps (def : Definition_) : G W call (option errors.error) :=
  match OmniEVMChain (network def) with
  | None => gret (Some (errors.New "no omni evm chain" []))
  | Some omniEVM => deployGasPumps_range def omniEVM (EVMChains (network def))
  end.

(** The loop of deployGasStation: the pumps appended so far, and the
    chains still to visit. *)
Fixpoint deployGasStation_range (net : Network) (omniEVM : Chain)
    (gasPumps : list GasPump) (chains : list Chain) : list GasPump :=
  match chains with
  | [] => gasPumps
  | chain :: rest =>
      if decide (ID chain = ID omniEVM)
      then deployGasStation_range net omniEVM gasPumps rest
      else deployGasStation_range net omniEVM
             (gasPumps ++ [MkGasPump (ID chain) (contracts_GasPump env (net_ID net))])
             rest
  end.

Definition deployGasStation (def : Definition_) : G W call (option errors.error) :=
  match OmniEVMChain (network def) with
  | None => gret (Some (errors.New "no omni evm chain" []))
  | Some omniEVM =>
      gbind (ext (CallBackend (ID omniEVM)) (Backend env (ID omniEVM))) (fun r =>
      match r.2 with
      | Some err => gret (Some (errors.Wrap err "backend" []))
      | None =>
          (* make([]T, 0, len(network.EVMChains())-1) *)
          if decide (length (EVMChains (network def)) = 0)
          then gpanic "makeslice: cap out of range"
          else
            let gasPumps :=
              deployGasStation_range (network def) omniEVM [] (EVMChains (network def)) in
            gbind (ext (CallDeployGasStation (Testnet_Network def) r.1 gasPumps)
                     (gasstation_DeployIfNeeded env (Testnet_Network def) r.1 gasPumps))
              (fun d =>
            match d.2 with
            | Some err =>
                gret (Some (errors.Wrap err "deploy" [("tx", maybeTxHash d.1.2)]))
            | None =>
                gbind (log_Info "Gas station deployed"
                         [("address", Hex env d.1.1); ("tx", maybeTxHash d.1.2)]) (fun _ =>
                gret None)
            end)
      end)
  end.

Definition fundGasStation (def : Definition_) : G W call (option errors.error) :=
  match OmniEVMChain (network def) with
  | None => gret (Some (errors.New "no omni evm chain" []))
  | Some omniEVM =>
      gbind (ext (CallBackend (ID omniEVM)) (Backend env (ID omniEVM))) (fun r =>
      match r.2 with
      | Some err => gret (Some (errors.Wrap err "backend" []))
      | None =>
          let funder :=
            if IsEphemeral env (net_ID (network def))
            then anvil_DevAccount8 env else eoa_Funder env in
          let addr := contracts_GasStation env (net_ID (network def)) in
          let amt := (1000 * Ether)%Z in
          let candidate := MkTxCandidate addr 0 amt in
          gbind (ext (CallSend r.1 funder candidate) (Send env r.1 funder candidate))
            (fun s =>
          match s.2 with
          | Some err => gret (Some (errors.Wrap err "send tx" []))
          | None =>
              match s.1.2 with
              | None => gpanic "invalid memory address or nil pointer dereference"
              | Some rec =>
                  if decide (Status rec <> ReceiptStatusSuccessful)
                  then gret (Some (errors.New "fund tx failed" [("tx", Hex env s.1.1)]))
                  else
                    gbind (log_Info "Funded gas station"
                             [("tx", Hex env s.1.1); ("amount", show_amount env amt)])
                      (fun _ => gret None)
              end
          end)
      end)
  end.

Definition DeployGasApp (def : Definition_) : G W call (option errors.error) :=
  gbind (deployGasPumps def) (fun err =>
  match err with
  | Some err => gret (Some (errors.Wrap err "deploy gas pumps" []))
  | None =>
      gbind (deployGasStation def) (fun err =>
      match err with
      | Some err => gret (Some (errors.Wrap err "deploy gas station" []))
      | None =>
          gbind (fundGasStation def) (fun err =>
          match err with
          | Some err => gret (Some (errors.Wrap err "fund gas station" []))
          | None => gret None
          end)
      end)
  end).

End world.

Arguments CallBackend {backend} chainID.
Arguments CallDeployGasPump {backend} net b.
Arguments CallDeployGasStation {backend} net b gasPumps.
Arguments CallSend {backend} b funder candidate.
Arguments CallLogInfo {backend} msg attrs.
Arguments Backend {W backend}.
Arguments gaspump_DeployIfNeeded {W backend}.
Arguments gasstation_DeployIfNeeded {W backend}.
Arguments Send {W backend}.
Arguments contracts_GasPump {W backend}.
Arguments contracts_GasStation {W backend}.
Arguments eoa_Funder {W backend}.
Arguments anvil_DevAccount8 {W backend}.
Arguments IsEphemeral {W backend}.
Arguments Hex {W backend}.
Arguments show_amount {W backend}.
Arguments maybeTxHash {W backend}.
Arguments deployGasPumps_range {W backend}.
Arguments deployGasStation_range {W backend}.
Arguments deployGasPumps {W backend}.
Arguments deployGasStation {W backend}.
Arguments fundGasStation {W backend}.
Arguments DeployGasApp {W backend}.
Arguments MkEnv {W backend}.
Arguments log_Info {W backend}.

(** GasPumpTest and the table GasPumpTests. *)
Record GasPumpTest := MkGasPumpTest { Recipient : common.Address; AmountETH : Z }.

Definition GasPumpTests : list GasPumpTest :=
  [ MkGasPumpTest 0x1111%Z 5000000000000000;
    MkGasPumpTest 0x2222%Z 10000000000000000;
    MkGasPumpTest 0x3333%Z 15000000000000000 ].

Section pump_tests.

(** The world, the handle of a chain backend, the handle of a bound gas
    pump contract, and what bind.TransactOpts holds besides its Value. *)
Variables (W backend pump opts : Type).

(** bind.TransactOpts: the field Value, a *big.Int, and the rest. *)
Record TransactOpts := MkTransactOpts { opts_rest : opts; opts_Value : option Z }.

(** What testGasPumps does to the outside, in program order. *)
Inductive test_call :=
| TestBackend (chainID : Z)
| TestNewOmniGasPump (addr : common.Address) (b : backend)
| TestBindOpts (b : backend) (payor : common.Address)
| TestFillUp (gasPump : pump) (txOpts : TransactOpts) (recipient : common.Address)
| TestLogInfo (msg : string) (attrs : list (string * string))
| TestLogWarn (msg : string) (err : errors.error).

(** The collaborators of testGasPumps: those of the deployment, and the
    binding of the gas pump contract.  BindOpts returns a pointer, which
    may be nil. *)
Record TestEnv := MkTestEnv
  { base : Env W backend;
    bindings_NewOmniGasPump :
      common.Address -> backend -> W -> (pump * option errors.error) * W;
    BindOpts :
      backend -> common.Address -> W ->
      (option TransactOpts * option errors.error) * W;
    FillUp :
      pump -> TransactOpts -> common.Address -> W ->
      (common.Hash * option errors.error) * W;
    anvil_DevAccount7 : common.Address }.

Variable tenv : TestEnv.

(** The loop over GasPumpTests on one chain.  txOpts is the pointer
    BindOpts gave: each round sets its Value before the call. *)
Fixpoint testGasPumps_tests (chain : Chain) (gasPump : pump)
    (txOpts : option TransactOpts) (tests : list GasPumpTest)
  : G W test_call (option errors.error) :=
  match tests with
  | [] => gret None
  | test :: rest =>
      match txOpts with
      | None => gpanic "invalid memory address or nil pointer dereference"
      | Some o =>
          let o := MkTransactOpts (opts_rest o) (Some (AmountETH test)) in
          gbind (ext (TestFillUp gasPump o (Recipient test))
                   (FillUp tenv gasPump o (Recipient test))) (fun r =>
          match r.2 with
          | Some err => gret (Some (errors.Wrap err "pump" [("chain", Name chain)]))
          | None =>
              gbind (ext (TestLogInfo "Pumped gas"
                            [("chain", Name chain); ("tx", Hex (base tenv) r.1);
                             ("recipient", Hex (base tenv) (Recipient test));
                             ("amount", show_amount (base tenv) (AmountETH test))])
                       (fun w => (tt, w))) (fun _ =>
              testGasPumps_tests chain gasPump (Some o) rest)
          end)
      end
  end.

(** The loop of testGasPumps over the chains still to visit. *)
Fixpoint testGasPumps_range (omniEVM : Chain) (pumpAddr payor : common.Address)
    (chains : list Chain) : G W test_call (option errors.error) :=
  match chains with
  | [] => gret None
  | chain :: rest =>
      if decide (ID chain = ID omniEVM)
      then testGasPumps_range omniEVM pumpAddr payor rest
      else
        gbind (ext (TestBackend (ID chain)) (Backend (base tenv) (ID chain))) (fun r =>
        match r.2 with
        | Some err => gret (Some (errors.Wrap err "backend" [("chain", Name chain)]))
        | None =>
            gbind (ext (TestNewOmniGasPump pumpAddr r.1)
                     (bindings_NewOmniGasPump tenv pumpAddr r.1)) (fun p =>
            match p.2 with
            | Some err => gret (Some (errors.Wrap err "new gas pump" []))
            | None =>
                gbind (ext (TestBindOpts r.1 payor) (BindOpts tenv r.1 payor)) (fun o =>
                match o.2 with
                | Some err => gret (Some (errors.Wrap err "bind opts" []))
                | None =>
                    gbind (testGasPumps_tests chain p.1 o.1 GasPumpTests) (fun e =>
                    match e with
                    | Some err => gret (Some err)
                    | None => testGasPumps_range omniEVM pumpAddr payor rest
                    end)
                end)
            end)
        end)
  end.

Definition testGasPumps (def : Definition_) : G W test_call (option errors.error) :=
  let networkID := Testnet_Network def in
  let pumpAddr := contracts_GasPump (base tenv) networkID in
  match OmniEVMChain (network def) with
  | None => gret (Some (errors.New "no omni evm chain" []))
  | Some omniEVM =>
      if negb (IsEphemeral (base tenv) networkID)
      then
        gbind (ext (TestLogWarn "Skipping bridge test"
                      (errors.New "only ephemeral networks" []))
                 (fun w => (tt, w))) (fun _ =>
        gret None)
      else
        let payor := anvil_DevAccount7 tenv in
        testGasPumps_range omniEVM pumpAddr payor (EVMChains (network def))
  end.

End pump_tests.

Arguments MkTransactOpts {opts}.
Arguments opts_rest {opts}.
Arguments opts_Value {opts}.
Arguments TestBackend {backend pump opts}.
Arguments TestNewOmniGasPump {backend pump opts}.
Arguments TestBindOpts {backend pump opts}.
Arguments TestFillUp {backend pump opts}.
Arguments TestLogInfo {backend pump opts}.
Arguments TestLogWarn {backend pump opts}.
Arguments MkTestEnv {W backend pump opts}.
Arguments base {W backend pump opts}.
Arguments bindings_NewOmniGasPump {W backend pump opts}.
Arguments BindOpts {W backend pump opts}.
Arguments FillUp {W backend pump opts}.
Arguments anvil_DevAccount7 {W backend pump opts}.
Arguments testGasPumps_tests {W backend pump opts}.
Arguments testGasPumps_range {W backend pump opts}.
Arguments testGasPumps {W backend pump opts}.

End app.

(** ** Vocabulary of the properties *)

(** Element [d] of the copy stands for element [e] of the source: nil for
    nil and for a transaction without bytes, and otherwise a slice over an
    array allocated at or after address [n0] that holds the same bytes. *)
Definition copy_of (h : heap) (n0 : nat) (hd : heap) (e d : option slice) : Prop :=
  match e, d with
  | None, None => True
  | None, Some _ => False
  | Some t, None => read_bytes h t = Some []
  | Some t, Some u =>
      n0 <= s_arr u /\
      exists bs, bs <> [] /\ read_bytes h t = Some bs /\ read_bytes hd u = Some bs
  end.

(** The invariant of the loop of copyTransactions over the source [src]
    with elements [ls], started in heap [h]: after [i] iterations, with the
    heap [hi] and the copy's array [l] at the first address after [h]. *)
Record tx_inv (h : heap) (src : slice) (ls : list (option slice))
    (i : nat) (hi : heap) (l : list (option slice)) : Prop :=
  { inv_old : forall a, a < length h -> hi !! a = h !! a;
    inv_cell : hi !! length h = Some (CSlices l);
    inv_len : length l = s_len src;
    inv_done : forall j e, j < i -> ls !! j = Some e ->
               exists d, l !! j = Some d /\ copy_of h (length h) hi e d;
    inv_todo : forall j, i <= j -> j < s_len src -> l !! j = Some None }.

Arguments inv_old {h src ls i hi l}.
Arguments inv_cell {h src ls i hi l}.
Arguments inv_len {h src ls i hi l}.
Arguments inv_done {h src ls i hi l}.
Arguments inv_todo {h src ls i hi l}.

(** The copy's array in the loop of copyWithdrawals over the elements
    [ls]: with [i] elements done it holds them, then [k] nils. *)
Definition wd_cell (ls : list (option nat)) (i k : nat) : cell :=
  CPtrs (take i ls ++ replicate k None).

(** [hf] has every cell of [h], unchanged, and possibly more. *)
Definition extends (h hf : heap) : Prop :=
  length h <= length hf /\ forall a, a < length h -> hf !! a = h !! a.

(** The heap after an optional pointer was duplicated, and the duplicate. *)
Definition dup_heap (h : heap) (c : Z -> cell) (v : option Z) : heap :=
  match v with Some z => h ++ [c z] | None => h end.
Definition dup_ptr (h : heap) (v : option Z) : option nat :=
  match v with Some _ => Some (length h) | None => None end.

(** Everything the converter dereferences can be read: the three optional
    pointers, every transaction, and the withdrawals array. *)
Record readable (h : heap) (ed : engine.ExecutableData)
    (b g x : option Z) (v : list (list byte)) (w : list (option nat)) : Prop :=
  { rd_baseFee : big_of h (engine.BaseFeePerGas ed) = Some b;
    rd_blobGasUsed : u64_of h (engine.BlobGasUsed ed) = Some g;
    rd_excessBlobGas : u64_of h (engine.ExcessBlobGas ed) = Some x;
    rd_txs : txs_of h (engine.Transactions ed) = Some v;
    rd_wds : wds_of h (engine.Withdrawals ed) = Some w }.

(** The wire payload that the converter returns, given where it put the
    five things it allocated. *)
Definition wire (ed : engine.ExecutableData)
    (baseFee blobGasUsed excessBlobGas : option nat) (txs wds : slice)
  : RethPayloadV3 :=
  {| ParentHash := engine.ParentHash ed;
     FeeRecipient := engine.FeeRecipient ed;
     StateRoot := engine.StateRoot ed;
     ReceiptsRoot := engine.ReceiptsRoot ed;
     LogsBloom := engine.LogsBloom ed;
     Random := engine.Random ed;
     Number := engine.Number ed;
     GasLimit := engine.GasLimit ed;
     GasUsed := engine.GasUsed ed;
     Timestamp := engine.Timestamp ed;
     ExtraData := engine.ExtraData ed;
     BaseFeePerGas := baseFee;
     BlockHash := engine.BlockHash ed;
     Transactions := Some txs;
     Withdrawals := Some wds;
     BlobGasUsed := blobGasUsed;
     ExcessBlobGas := excessBlobGas;
     ExecutionWitness := engine.ExecutionWitness ed |}.

(** The valid status domain of each capability, as the specification names
    them; the inline tables of the two calls are compared with these. *)
Definition submitPayload_domain : list string :=
  [engine.VALID; engine.INVALID; engine.SYNCING; engine.ACCEPTED].
Definition updateHead_domain : list string :=
  [engine.VALID; engine.INVALID; engine.SYNCING].

(** A failure as C4 words it, for one call: the failure returned
    for an out-of-domain status [s] and transport error [e] wraps [e] and
    carries the status as an attribute. *)
Definition annotated_transport_failure
    (failure : option errors.error) (e : errors.error) (s : string) : Prop :=
  exists f, failure = Some f /\ errors.cause f = Some e /\
            exists k, (k, s) ∈ errors.fields f.

(** What the caller of NewPayloadV3 gets back: the response and the error,
    without the log and the heap. *)
Definition outcome {A} (r : option ((A * list event) * list cell)) : option A :=
  (fun x => x.1.1) <$> r.

(** How many events of a log satisfy [p]. *)
Definition count_events (p : event -> bool) (l : list event) : nat :=
  length (List.filter p l).

Definition is_IncError (e : event) : bool :=
  match e with IncError _ _ => true | _ => false end.

Definition is_Latency (e : event) : bool :=
  match e with Latency _ _ => true | _ => false end.

(** What a call reports to the metrics: one latency observation under the
    chain and endpoint labels, last of all, and one error count under the
    same labels exactly when the call fails. *)
Definition instrumented (ch ep : string) (failed : bool) (events : list event) : Prop :=
  last events = Some (Latency ch ep) /\
  count_events is_Latency events = 1 /\
  count_events is_IncError events = (if failed then 1 else 0) /\
  forall ch' ep', IncError ch' ep' ∈ events -> ch' = ch /\ ep' = ep.

(** ** Sample inputs *)

(** A heap with a payload in it: two transactions 0xAA and 0xBB, a bloom
    filter, extra data, a blob gas counter that is present and zero, a base
    fee of 7, and two withdrawals of which the second is nil. *)
Definition sample_heap : list cell :=
  [ CBytes [xaa];                                     (* 0 *)
    CBytes [xbb];                                     (* 1 *)
    CSlices [Some (Slice 0 0 1); Some (Slice 1 0 1)]; (* 2 *)
    CBytes [x01; x02];                                (* 3 *)
    CBytes [x03];                                     (* 4 *)
    CU64 0%Z;                                           (* 5 *)
    CBig 7%Z;                                           (* 6 *)
    CWithdrawal (MkWithdrawal 1%Z 2%Z 3%Z 4%Z);               (* 7 *)
    CPtrs [Some 7; None] ].                           (* 8 *)

Definition sample_payload : engine.ExecutableData :=
  {| engine.ParentHash := 11%Z; engine.FeeRecipient := 12%Z;
     engine.StateRoot := 13%Z; engine.ReceiptsRoot := 14%Z;
     engine.LogsBloom := Some (Slice 3 0 2);
     engine.Random := 15%Z; engine.Number := 16%Z; engine.GasLimit := 17%Z;
     engine.GasUsed := 18%Z; engine.Timestamp := 19%Z;
     engine.ExtraData := Some (Slice 4 0 1);
     engine.BaseFeePerGas := Some 6;
     engine.BlockHash := 20%Z;
     engine.Transactions := Some (Slice 2 0 2);
     engine.Withdrawals := Some (Slice 8 0 2);
     engine.BlobGasUsed := Some 5;
     engine.ExcessBlobGas := None;
     engine.ExecutionWitness := None |}.

(** A heap with one transaction that is not nil and has no bytes. *)
Definition empty_tx_heap : list cell :=
  [ CBytes []; CSlices [Some (Slice 0 0 0)] ].

Definition status_of (s : string) : engine.PayloadStatusV1 :=
  engine.MkPayloadStatusV1 s None None.

Definition sample_envelope : engine.ExecutionPayloadEnvelope :=
  engine.MkExecutionPayloadEnvelope None None false.

(** A peer that answers every call with status [s] and transport error
    [err]. *)
Definition sample_client (s : string) (err : option errors.error) : engineClient :=
  {| chain := "omni_evm";
     cl := {| CallContext_status := fun _ _ _ _ _ => (status_of s, err);
              CallContext_forkchoice := fun _ _ _ =>
                (engine.MkForkChoiceResponse (status_of s) None, err);
              CallContext_envelope := fun _ _ => (sample_envelope, err) |} |}.

Definition sample_update : engine.ForkchoiceStateV1 :=
  engine.MkForkchoiceStateV1 1%Z 2%Z 3%Z.

(** A peer that answers only the V3 methods, and SYNCING to those. *)
Definition v3_only_client : engineClient :=
  {| chain := "omni_evm";
     cl := {| CallContext_status := fun m _ _ _ _ =>
                if decide (m = "engine_newPayloadV3")
                then (status_of "SYNCING", None)
                else (engine.zero_PayloadStatusV1, Some (errors.External "method not found"));
              CallContext_forkchoice := fun m _ _ =>
                if decide (m = "engine_forkchoiceUpdatedV3")
                then (engine.MkForkChoiceResponse (status_of "SYNCING") None, None)
                else (engine.zero_ForkChoiceResponse,
                      Some (errors.External "method not found"));
              CallContext_envelope := fun m _ =>
                if decide (m = "engine_getPayloadV3")
                then (sample_envelope, None)
                else (sample_envelope, Some (errors.External "method not found")) |} |}.

(** A payload whose pointers and slices are all nil. *)
Definition bare_payload : engine.ExecutableData :=
  {| engine.ParentHash := 1%Z; engine.FeeRecipient := 2%Z;
     engine.StateRoot := 3%Z; engine.ReceiptsRoot := 4%Z;
     engine.LogsBloom := None;
     engine.Random := 5%Z; engine.Number := 6%Z; engine.GasLimit := 7%Z;
     engine.GasUsed := 8%Z; engine.Timestamp := 9%Z;
     engine.ExtraData := None;
     engine.BaseFeePerGas := None;
     engine.BlockHash := 10%Z;
     engine.Transactions := None;
     engine.Withdrawals := None;
     engine.BlobGasUsed := None;
     engine.ExcessBlobGas := None;
     engine.ExecutionWitness := None |}.

(** A stand-in for time.ParseDuration that knows "10m" only. *)
Definition sample_ParseDuration (s : string) : Z * option string :=
  if decide (s = "10m") then (600000000000%Z, None)
  else (0%Z, Some "time: invalid duration").

(** The table that reth writes for a duration of 1.5 s, with a key that
    UnmarshalTOML does not look at. *)
Definition sample_table : gmap string reth.value :=
  <["secs" := reth.VInt64 1]> (<["nanos" := reth.VInt 500000000]>
    (<["unit" := reth.VString "ns"]> ∅)).

(** A table of ten thousand million seconds. *)
Definition overflow_table : gmap string reth.value :=
  <["secs" := reth.VInt64 10000000000]> (<["nanos" := reth.VInt64 0]> ∅).

(** The deployment, read off its calls: the chains whose backend was asked
    for, the backends a pump was deployed with, the pump lists a station was
    deployed with, and the transactions sent. *)
Definition backend_calls {B} (t : list (app.call B)) : list Z :=
  omap (fun c => match c with app.CallBackend id => Some id | _ => None end) t.

Definition pump_deploys {B} (t : list (app.call B)) : list (string * B) :=
  omap (fun c => match c with app.CallDeployGasPump n b => Some (n, b) | _ => None end) t.

Definition station_deploys {B} (t : list (app.call B)) : list (list app.GasPump) :=
  omap (fun c => match c with app.CallDeployGasStation _ _ ps => Some ps | _ => None end) t.

Definition sends {B} (t : list (app.call B)) : list (common.Address * app.TxCandidate) :=
  omap (fun c => match c with app.CallSend _ f cand => Some (f, cand) | _ => None end) t.

(** The EVM chains of a network other than (by identifier) the Omni EVM
    chain, in the network's order. *)
Definition other_chains (net : app.Network) (omniEVM : app.Chain) : list app.Chain :=
  filter (fun c => app.ID c <> app.ID omniEVM) (app.EVMChains net).

(** A transaction that is sent without an error has a receipt. *)
Definition Send_has_receipt {W B} (env : app.Env W B) : Prop :=
  forall b funder cand w,
    (app.Send env b funder cand w).1.2 = None ->
    (app.Send env b funder cand w).1.1.2 <> None.

(** A sample world for the deployment: the world counts the calls made, a
    backend is named by its chain, every deployment succeeds except on the
    chain [bad], and the transaction sent has the receipt status [st]. *)
Definition sample_env (bad : Z) (st : Z) : app.Env nat Z :=
  {| app.Backend := fun id w => ((id, None), S w);
     app.gaspump_DeployIfNeeded := fun _ b w =>
       if decide (b = bad)
       then ((0%Z, None, Some (errors.External "reverted")), S w)
       else (((b + 100)%Z, Some (app.MkReceipt b 1%Z), None), S w);
     app.gasstation_DeployIfNeeded := fun _ b _ w =>
       (((b + 200)%Z, Some (app.MkReceipt b 1%Z), None), S w);
     app.Send := fun b _ _ w => ((77%Z, Some (app.MkReceipt 77%Z st), None), S w);
     app.contracts_GasPump := fun _ => 500%Z;
     app.contracts_GasStation := fun _ => 600%Z;
     app.eoa_Funder := 1%Z;
     app.anvil_DevAccount8 := 8%Z;
     app.IsEphemeral := fun n => bool_decide (n = "devnet");
     app.Hex := fun _ => "0x";
     app.show_amount := fun _ => "amount" |}.

Definition sample_omniEVM : app.Chain := app.MkChain 166%Z "omni_evm".

Definition sample_network : app.Network :=
  app.MkNetwork "devnet" (Some sample_omniEVM)
    [app.MkChain 1%Z "mock_l1"; sample_omniEVM; app.MkChain 2%Z "mock_l2"].

Definition sample_def : app.Definition_ := app.MkDefinition "devnet" sample_network.

(** testGasPumps, read off its calls: the chains whose backend was asked
    for, the addresses a gas pump was bound at, and the fill-ups made, each
    with its recipient and the Value of the transaction options. *)
Definition test_backends {B P O} (t : list (app.test_call B P O)) : list Z :=
  omap (fun c => match c with app.TestBackend id => Some id | _ => None end) t.

Definition pump_bindings {B P O} (t : list (app.test_call B P O)) : list common.Address :=
  omap (fun c => match c with app.TestNewOmniGasPump a _ => Some a | _ => None end) t.

Definition fillups {B P O} (t : list (app.test_call B P O))
  : list (common.Address * option Z) :=
  omap (fun c => match c with
                 | app.TestFillUp _ o r => Some (r, app.opts_Value o)
                 | _ => None
                 end) t.

(** The fill-up of a test of the table: its recipient and its amount. *)
Definition fillup_of (test : app.GasPumpTest) : common.Address * option Z :=
  (app.Recipient test, Some (app.AmountETH test)).

(** The table of tests once for every chain of a list. *)
Definition fillups_on (chains : list app.Chain) : list (common.Address * option Z) :=
  flat_map (fun _ => map fillup_of app.GasPumpTests) chains.

(** BindOpts gives transaction options whenever it gives no error. *)
Definition BindOpts_has_opts {W B P O} (tenv : app.TestEnv W B P O) : Prop :=
  forall b payor w,
    (app.BindOpts tenv b payor w).1.2 = None ->
    (app.BindOpts tenv b payor w).1.1 <> None.

(** A sample world for testGasPumps: a bound pump is named by its chain,
    and every fill-up succeeds except the one to [bad] . *)
Definition sample_tenv (bad : common.Address) : app.TestEnv nat Z Z unit :=
  {| app.base := sample_env 0 1;
     app.bindings_NewOmniGasPump := fun _ b w => ((b, None), S w);
     app.BindOpts := fun _ _ w => ((Some (app.MkTransactOpts tt None), None), S w);
     app.FillUp := fun p _ r w =>
       if decide (r = bad)
       then ((0%Z, Some (errors.External "out of gas")), S w)
       else ((p, None), S w);
     app.anvil_DevAccount7 := 7%Z |}.

(** ** Facts about the store *)

Section store_facts.

Implicit Types (h : heap) (s t : slice) (a n : nat).

Lemma window_length {A} s (l k : list A) :
  window s l = Some k -> length k = s_len s.
Proof.
  unfold window. case_decide; [|done]. intros [= <-].
  rewrite length_take, length_drop. lia.
Qed.

Lemma read_bytes_agree h1 h2 t :
  h1 !! s_arr t = h2 !! s_arr t -> read_bytes h1 t = read_bytes h2 t.
Proof. unfold read_bytes. by intros ->. Qed.

Lemma read_slices_agree h1 h2 t :
  h1 !! s_arr t = h2 !! s_arr t -> read_slices h1 t = read_slices h2 t.
Proof. unfold read_slices. by intros ->. Qed.

Lemma read_ptrs_agree h1 h2 t :
  h1 !! s_arr t = h2 !! s_arr t -> read_ptrs h1 t = read_ptrs h2 t.
Proof. unfold read_ptrs. by intros ->. Qed.

Lemma read_bytes_in_heap h t bs : read_bytes h t = Some bs -> s_arr t < length h.
Proof.
  unfold read_bytes. destruct (h !! s_arr t) eqn:E; [|done].
  intros _. by eapply lookup_lt_Some.
Qed.

Lemma read_slices_in_heap h t l : read_slices h t = Some l -> s_arr t < length h.
Proof.
  unfold read_slices. destruct (h !! s_arr t) eqn:E; [|done].
  intros _. by eapply lookup_lt_Some.
Qed.

Lemma read_ptrs_in_heap h t l : read_ptrs h t = Some l -> s_arr t < length h.
Proof.
  unfold read_ptrs. destruct (h !! s_arr t) eqn:E; [|done].
  intros _. by eapply lookup_lt_Some.
Qed.

Lemma read_slices_length h t l : read_slices h t = Some l -> length l = s_len t.
Proof.
  unfold read_slices. destruct (h !! s_arr t) as [[]|]; try done.
  apply window_length.
Qed.

Lemma read_ptrs_length h t l : read_ptrs h t = Some l -> length l = s_len t.
Proof.
  unfold read_ptrs. destruct (h !! s_arr t) as [[]|]; try done.
  apply window_length.
Qed.

(** A whole fresh array read through the slice that [make] returns. *)
Lemma window_whole {A} (l : list A) a : window (Slice a 0 (length l)) l = Some l.
Proof.
  unfold window; simpl. rewrite decide_True by lia.
  by rewrite drop_0, firstn_all.
Qed.

(** The bytes of an element, nil or not, depend on its own array only. *)
Lemma bytes_of_agree h1 h2 (e : option slice) :
  (forall t, e = Some t -> h1 !! s_arr t = h2 !! s_arr t) ->
  bytes_of h1 e = bytes_of h2 e.
Proof. destruct e as [t|]; [|done]. intros H. apply read_bytes_agree. eauto. Qed.

Lemma mapM_ext_Forall {A B} (f g : A -> option B) (l : list A) :
  Forall (fun x => f x = g x) l -> mapM f l = mapM g l.
Proof. induction 1 as [|x l Hx _ IH]; [done|]. simpl. by rewrite Hx, IH. Qed.

End store_facts.

(** ** copyTransactions: the loop invariant *)

Section copyTransactions_loop.

Variables (h : heap) (src : slice) (ls : list (option slice)).
Hypothesis Hsrc : read_slices h src = Some ls.
Hypothesis Hls : Forall (fun e => is_Some (bytes_of h e)) ls.

Local Abbreviation n0 := (length h).
Local Abbreviation n := (s_len src).
Local Abbreviation copied := (Slice n0 0 n).

Lemma copy_of_stable hi hi' l e d :
  hi !! n0 = Some (CSlices l) ->
  (forall a, a < length hi -> a <> n0 -> hi' !! a = hi !! a) ->
  copy_of h n0 hi e d -> copy_of h n0 hi' e d.
Proof.
  intros Hc Hsame. destruct e as [t|], d as [u|]; simpl; try done.
  intros [Hfresh (bs & Hne & Hs & Hd)]. split; [done|].
  exists bs. split_and!; try done.
  rewrite <- Hd. apply read_bytes_agree, Hsame.
  - by eapply read_bytes_in_heap.
  - intros Heq. unfold read_bytes in Hd. rewrite Heq, Hc in Hd. done.
Qed.

Lemma tx_inv_src i hi l : tx_inv h src ls i hi l -> read_slices hi src = Some ls.
Proof.
  intros I. rewrite <- Hsrc. apply read_slices_agree, (inv_old I).
  by eapply read_slices_in_heap.
Qed.

Lemma tx_inv_store i hi l x :
  tx_inv h src ls i hi l -> i < n ->
  (forall e, ls !! i = Some e ->
             copy_of h n0 (<[n0 := CSlices (<[i := x]> l)]> hi) e x) ->
  set_index_slices copied i x hi
    = Some (tt, <[n0 := CSlices (<[i := x]> l)]> hi) /\
  tx_inv h src ls (S i) (<[n0 := CSlices (<[i := x]> l)]> hi) (<[i := x]> l).
Proof.
  intros I Hi Hx.
  pose proof (lookup_lt_Some _ _ _ (inv_cell I)) as Hlt.
  split.
  - unfold set_index_slices, store; simpl. rewrite (inv_cell I).
    rewrite decide_True by (rewrite (inv_len I); lia).
    by rewrite decide_True by done.
  - split.
    + intros a Ha. rewrite list_lookup_insert_ne by lia.
      by apply (inv_old I).
    + by apply list_lookup_insert_eq.
    + rewrite length_insert. apply (inv_len I).
    + intros j e Hj He. destruct (decide (j = i)) as [->|Hne].
      * exists x. split; [|by apply Hx].
        apply list_lookup_insert_eq. rewrite (inv_len I). done.
      * destruct (inv_done I j e) as (d & Hd & Hc); [lia|done|].
        exists d. split; [by rewrite list_lookup_insert_ne|].
        eapply copy_of_stable; [apply (inv_cell I)| |done].
        intros a _ Ha. by rewrite list_lookup_insert_ne.
    + intros j Hj Hjn. rewrite list_lookup_insert_ne by lia.
      apply (inv_todo I); lia.
Qed.

Lemma tx_inv_alloc i hi l c :
  tx_inv h src ls i hi l -> tx_inv h src ls i (hi ++ [c]) l.
Proof.
  intros I.
  pose proof (lookup_lt_Some _ _ _ (inv_cell I)) as Hlt.
  split.
  - intros a Ha. rewrite lookup_app_l by lia. by apply (inv_old I).
  - rewrite lookup_app_l by done. apply (inv_cell I).
  - apply (inv_len I).
  - intros j e Hj He. destruct (inv_done I j e) as (d & Hd & Hc); [done..|].
    exists d. split; [done|].
    eapply copy_of_stable; [apply (inv_cell I)| |done].
    intros a Ha _. by rewrite lookup_app_l.
  - apply (inv_todo I).
Qed.

(** One iteration keeps the invariant, and does not get stuck. *)
Lemma copyTransactions_range_step i k hi l :
  tx_inv h src ls i hi l -> i + S k = n ->
  exists hi' l',
    tx_inv h src ls (S i) hi' l' /\
    copyTransactions_range src copied i (S k) hi
      = copyTransactions_range src copied (S i) k hi'.
Proof.
  intros I Hi.
  pose proof (read_slices_length _ _ _ Hsrc) as Hlen.
  destruct (lookup_lt_is_Some_2 ls i) as [e He]; [lia|].
  simpl. unfold Mem.bind at 1, index_slices, lift.
  rewrite decide_True by lia.
  rewrite (tx_inv_src _ _ _ I); simpl. rewrite He.
  destruct e as [t|].
  - (* a non-nil transaction *)
    pose proof (proj1 (Forall_lookup _ _) Hls i _ He) as [bs Hbs]; simpl in Hbs.
    assert (read_bytes hi t = Some bs) as Hbs'.
    { rewrite <- Hbs. apply read_bytes_agree, (inv_old I).
      by eapply read_bytes_in_heap. }
    unfold Mem.bind at 1, Mem.bind at 1, append_nil, Mem.bind at 1, lift.
    rewrite Hbs'. destruct bs as [|b bs].
    + (* without bytes: the nil slice is stored *)
      unfold Mem.ret; cbv beta iota.
      destruct (tx_inv_store i hi l None I) as [-> I']; [lia| |].
      { intros e Hee. rewrite He in Hee. injection Hee as <-. done. }
      eauto.
    + (* with bytes: a new array *)
      unfold Mem.bind at 1, alloc, Mem.ret; cbv beta iota.
      set (u := Slice (length hi) 0 (length (b :: bs))).
      pose proof (tx_inv_alloc i hi l (CBytes (b :: bs)) I) as Ia.
      destruct (tx_inv_store i _ l (Some u) Ia) as [-> I']; [lia| |eauto].
      intros e Hee. rewrite He in Hee. injection Hee as <-.
      pose proof (lookup_lt_Some _ _ _ (inv_cell I)) as Hlt.
      simpl. split; [lia|]. exists (b :: bs). split_and!; try done.
      unfold read_bytes; simpl.
      rewrite list_lookup_insert_ne by lia.
      rewrite lookup_app_r, Nat.sub_diag by done. simpl.
      apply (window_whole (b :: bs)).
  - (* a nil transaction: the element stays as make left it *)
    unfold Mem.bind at 1, Mem.ret. exists hi, l. split; [|done].
    split; try apply I.
    + intros j e Hj Hje. destruct (decide (j = i)) as [->|Hne].
      * rewrite He in Hje. injection Hje as <-. exists None. split; [|done].
        apply (inv_todo I); [done|lia].
      * apply (inv_done I); [lia|done].
    + intros j Hj Hjn. apply (inv_todo I); lia.
Qed.

Lemma copyTransactions_range_spec k : forall i hi l,
  tx_inv h src ls i hi l -> i + k = n ->
  exists hf lf,
    copyTransactions_range src copied i k hi = Some (tt, hf) /\ tx_inv h src ls n hf lf.
Proof.
  induction k as [|k IH]; intros i hi l I Hi.
  - exists hi, l. split; [done|]. by replace n with i by lia.
  - destruct (copyTransactions_range_step i k hi l I Hi) as (hi' & l' & I' & ->).
    apply (IH (S i) hi' l' I'). lia.
Qed.

(** [make] establishes the invariant. *)
Lemma tx_inv_init : tx_inv h src ls 0 (h ++ [CSlices (replicate n None)]) (replicate n None).
Proof.
  split.
  - intros a Ha. by rewrite lookup_app_l.
  - by rewrite lookup_app_r, Nat.sub_diag.
  - apply length_replicate.
  - intros j e Hj. lia.
  - intros j _ Hj. by apply lookup_replicate_2.
Qed.

End copyTransactions_loop.

(** ** copyTransactions: what a call establishes *)

Lemma copy_of_bytes h n0 hd e d y :
  copy_of h n0 hd e d -> bytes_of h e = Some y -> bytes_of hd d = Some y.
Proof.
  destruct e as [t|], d as [u|]; simpl; try done.
  - intros [_ (bs & _ & Hs & Hd)]. congruence.
  - congruence.
Qed.

Lemma copy_of_fresh h n0 hd e u : copy_of h n0 hd e (Some u) -> n0 <= s_arr u.
Proof. destruct e; simpl; [tauto|done]. Qed.

(** The call returns a non-nil slice over a new array at the first free
    address; every cell that existed before is as it was; the elements of
    the result stand for the elements of the source. *)
Lemma copyTransactions_post h (transactions : option slice) ls :
  tx_headers h transactions = Some ls ->
  Forall (fun e => is_Some (bytes_of h e)) ls ->
  exists hf lf,
    copyTransactions transactions h
      = Some (Some (Slice (length h) 0 (length ls)), hf) /\
    (forall a, a < length h -> hf !! a = h !! a) /\
    hf !! length h = Some (CSlices lf) /\
    Forall2 (copy_of h (length h) hf) ls lf.
Proof.
  destruct transactions as [src|]; simpl.
  - intros Hsrc Hls.
    pose proof (read_slices_length _ _ _ Hsrc) as Hlen.
    destruct (copyTransactions_range_spec h src ls Hsrc Hls (s_len src) 0 _ _
                (tx_inv_init h src ls)) as (hf & lf & Hrun & I); [done|].
    exists hf, lf. split_and!.
    + unfold Mem.bind, make_slices, Mem.bind, alloc, Mem.ret.
      rewrite Hrun, Hlen. done.
    + apply (inv_old I).
    + apply (inv_cell I).
    + apply Forall2_same_length_lookup_2.
      * rewrite (inv_len I). done.
      * intros j e d He Hd.
        destruct (inv_done I j e) as (d' & Hd' & Hc); [|done|].
        { rewrite <- Hlen. by eapply lookup_lt_Some. }
        congruence.
  - intros [= <-] _. exists (h ++ [CSlices []]), []. split_and!.
    + done.
    + intros a Ha. by rewrite lookup_app_l.
    + by rewrite lookup_app_r, Nat.sub_diag.
    + constructor.
Qed.

(** Reading the result back. *)
Lemma copied_txs_read h n0 hf ls lf v :
  hf !! n0 = Some (CSlices lf) ->
  Forall2 (copy_of h n0 hf) ls lf ->
  mapM (bytes_of h) ls = Some v ->
  txs_of hf (Some (Slice n0 0 (length ls))) = Some v.
Proof.
  intros Hcell Hcopy Hv. unfold txs_of, read_slices; simpl. rewrite Hcell.
  rewrite (Forall2_length _ _ _ Hcopy), window_whole; simpl.
  apply mapM_Some, Forall2_same_length_lookup_2.
  - rewrite <- (Forall2_length _ _ _ Hcopy). by eapply length_mapM.
  - intros j d y Hd Hy.
    destruct (Forall2_lookup_r _ _ _ _ _ Hcopy Hd) as (e & He & Hc).
    eapply copy_of_bytes; [done|].
    apply mapM_Some_1 in Hv. exact (Forall2_lookup_lr _ _ _ j _ _ Hv He Hy).
Qed.

(** The result reads the same in every heap that agrees with the final one
    on the cells allocated since address [n0]: nothing of it lies below. *)
Lemma copied_txs_frame h n0 hf h2 ls lf :
  hf !! n0 = Some (CSlices lf) ->
  Forall2 (copy_of h n0 hf) ls lf ->
  agree (fun a => n0 <= a /\ a < length hf) hf h2 ->
  txs_of h2 (Some (Slice n0 0 (length ls))) = txs_of hf (Some (Slice n0 0 (length ls))).
Proof.
  intros Hcell Hcopy Hag. unfold txs_of.
  pose proof (lookup_lt_Some _ _ _ Hcell) as Hlt.
  rewrite (read_slices_agree h2 hf) by (symmetry; apply Hag; simpl; lia).
  unfold read_slices; simpl. rewrite Hcell.
  rewrite (Forall2_length _ _ _ Hcopy), window_whole; simpl.
  apply mapM_ext_Forall, Forall_lookup. intros j d Hd.
  apply bytes_of_agree. intros u ->. symmetry. apply Hag.
  destruct (Forall2_lookup_r _ _ _ _ _ Hcopy Hd) as ([t|] & _ & Hc); [|done].
  destruct Hc as [Hfresh (bs & _ & _ & Hu)]. split; [done|].
  by eapply read_bytes_in_heap.
Qed.

(** What was readable before the call reads the same after it. *)
Lemma txs_of_old h hf (s : option slice) v :
  (forall a, a < length h -> hf !! a = h !! a) ->
  txs_of h s = Some v -> txs_of hf s = Some v.
Proof.
  intros Hold. destruct s as [t|]; [|done]. unfold txs_of.
  destruct (read_slices h t) as [l|] eqn:Hl; [|done]. simpl. intros Hv.
  rewrite (read_slices_agree hf h), Hl
    by (apply Hold; by eapply read_slices_in_heap). simpl.
  rewrite <- Hv. apply mapM_ext_Forall, Forall_lookup. intros j e He.
  apply bytes_of_agree. intros u ->. apply Hold.
  apply mapM_Some_1 in Hv.
  destruct (Forall2_lookup_l _ _ _ _ _ Hv He) as (y & _ & Hy).
  by eapply read_bytes_in_heap.
Qed.

Lemma txs_of_headers h (s : option slice) v :
  txs_of h s = Some v ->
  exists ls, tx_headers h s = Some ls /\ mapM (bytes_of h) ls = Some v /\
             Forall (fun e => is_Some (bytes_of h e)) ls /\ length ls = len s.
Proof.
  destruct s as [t|]; simpl.
  - destruct (read_slices h t) as [l|] eqn:Hl; [|done]. simpl. intros Hv.
    exists l. split_and!; try done.
    + apply (proj1 (mapM_is_Some _ _)). by exists v.
    + by eapply read_slices_length.
  - intros [= <-]. exists []. by split_and!.
Qed.

(** ** copyWithdrawals: the loop and the call *)

Section copyWithdrawals_loop.

Variables (h : heap) (src : slice) (ls : list (option nat)).
Hypothesis Hsrc : read_ptrs h src = Some ls.

Local Abbreviation n0 := (length h).
Local Abbreviation copied := (Slice n0 0 (s_len src)).

Lemma wd_cell_next i k p :
  ls !! i = Some p -> (take i ls ++ [p]) ++ replicate k None = take (S i) ls ++ replicate k None.
Proof. intros Hp. by rewrite (take_S_r _ _ _ Hp). Qed.

Lemma copyWithdrawals_range_spec k : forall i,
  i + k = s_len src ->
  copyWithdrawals_range src copied i k (h ++ [wd_cell ls i k])
    = Some (tt, h ++ [CPtrs ls]).
Proof.
  pose proof (read_ptrs_length _ _ _ Hsrc) as Hlen.
  induction k as [|k IH]; intros i Hi.
  - simpl. unfold Mem.ret, wd_cell. simpl.
    rewrite app_nil_r, firstn_all2 by lia. done.
  - destruct (lookup_lt_is_Some_2 ls i) as [p Hp]; [lia|].
    simpl. unfold Mem.bind at 1, index_ptrs, lift.
    rewrite decide_True by lia.
    rewrite (read_ptrs_agree _ h)
      by (apply lookup_app_l; by eapply read_ptrs_in_heap).
    rewrite Hsrc; simpl. rewrite Hp.
    destruct p as [a|].
    + unfold Mem.bind at 1, set_index_ptrs, store; simpl.
      rewrite lookup_app_r, Nat.sub_diag by done. simpl.
      rewrite decide_True
        by (rewrite length_app, length_take; simpl; rewrite length_replicate; lia).
      rewrite decide_True by (rewrite length_app; simpl; lia).
      rewrite insert_app_r_alt, Nat.sub_diag by done. simpl.
      rewrite insert_app_r_alt by (rewrite length_take; lia).
      rewrite length_take, Nat.min_l, Nat.sub_diag by lia. simpl.
      rewrite (cons_middle (Some a)), app_assoc, (wd_cell_next _ _ _ Hp).
      apply (IH (S i)). lia.
    + unfold Mem.bind at 1, Mem.ret.
      unfold wd_cell at 1. simpl.
      rewrite (cons_middle None), app_assoc, (wd_cell_next _ _ _ Hp).
      apply (IH (S i)). lia.
Qed.

End copyWithdrawals_loop.

(** The call allocates exactly one array, which ends up holding the
    source's pointers, and returns a non-nil slice over it. *)
Lemma copyWithdrawals_post h (withdrawals : option slice) ls :
  wds_of h withdrawals = Some ls ->
  copyWithdrawals withdrawals h
    = Some (Some (Slice (length h) 0 (length ls)), h ++ [CPtrs ls]).
Proof.
  destruct withdrawals as [src|]; simpl.
  - intros Hsrc. pose proof (read_ptrs_length _ _ _ Hsrc) as Hlen.
    unfold Mem.bind, make_ptrs, Mem.bind, alloc, Mem.ret.
    pose proof (copyWithdrawals_range_spec h src ls Hsrc (s_len src) 0) as Hrun.
    unfold wd_cell in Hrun. simpl in Hrun. rewrite Hrun by done.
    by rewrite Hlen.
  - by intros [= <-].
Qed.

(** ** Heaps that grow *)

Lemma extends_refl h : extends h h.
Proof. by split. Qed.

Lemma extends_trans h1 h2 h3 : extends h1 h2 -> extends h2 h3 -> extends h1 h3.
Proof.
  intros [L1 O1] [L2 O2]. split; [lia|].
  intros a Ha. rewrite O2 by lia. by apply O1.
Qed.

Lemma extends_app h k : extends h (h ++ k).
Proof.
  split; [rewrite length_app; lia|]. intros a Ha. by apply lookup_app_l.
Qed.

Lemma extends_lookup h hf a c : extends h hf -> h !! a = Some c -> hf !! a = Some c.
Proof. intros [_ O] Ha. rewrite O; [done|]. by eapply lookup_lt_Some. Qed.

Lemma u64_of_extends h hf p v : extends h hf -> u64_of h p = Some v -> u64_of hf p = Some v.
Proof.
  intros E. destruct p as [a|]; [|done]. unfold u64_of, load_u64.
  destruct (h !! a) as [c|] eqn:Ha; [|done]. by rewrite (extends_lookup _ _ _ _ E Ha).
Qed.

Lemma big_of_extends h hf p v : extends h hf -> big_of h p = Some v -> big_of hf p = Some v.
Proof.
  intros E. destruct p as [a|]; [|done]. unfold big_of, load_big.
  destruct (h !! a) as [c|] eqn:Ha; [|done]. by rewrite (extends_lookup _ _ _ _ E Ha).
Qed.

Lemma wds_of_extends h hf s v : extends h hf -> wds_of h s = Some v -> wds_of hf s = Some v.
Proof.
  intros E. destruct s as [t|]; [|done]. unfold wds_of, read_ptrs.
  destruct (h !! s_arr t) as [c|] eqn:Ha; [|done]. by rewrite (extends_lookup _ _ _ _ E Ha).
Qed.

Lemma txs_of_extends h hf s v : extends h hf -> txs_of h s = Some v -> txs_of hf s = Some v.
Proof. intros [_ O]. by apply txs_of_old. Qed.

(** Reads that stay below [n] see the same in heaps that agree below [n]. *)
Lemma agree_below_extends h hf h2 :
  extends h hf -> agree (fun a => a < length h) hf h2 -> extends h h2.
Proof.
  intros [L O] Hag. split.
  - destruct h as [|c h] using rev_ind; [simpl; lia|].
    rewrite length_app in *; simpl in *.
    assert (h2 !! length h = Some c) as Hc.
    { rewrite <- Hag, O by lia. by rewrite lookup_app_r, Nat.sub_diag. }
    apply lookup_lt_Some in Hc. lia.
  - intros a Ha. rewrite <- Hag by done. by apply O.
Qed.

(** ** The optional pointers *)

Lemma new_big_set_post h x v :
  load_big h x = Some v ->
  new_big_set x h = Some (Some (length h), h ++ [CBig v]).
Proof.
  intros Hv. unfold new_big_set, Mem.bind, alloc, lift, store, Mem.ret.
  assert (load_big (h ++ [CBig 0%Z]) x = Some v) as ->.
  { revert Hv. unfold load_big. destruct (h !! x) as [c|] eqn:Hx; [|done].
    by rewrite (lookup_app_l_Some _ _ _ _ Hx). }
  rewrite decide_True by (rewrite length_app; simpl; lia).
  by rewrite insert_app_r_alt, Nat.sub_diag by done.
Qed.

Lemma new_u64_set_post h x v :
  load_u64 h x = Some v ->
  new_u64_set x h = Some (Some (length h), h ++ [CU64 v]).
Proof.
  intros Hv. unfold new_u64_set, Mem.bind, alloc, lift, store, Mem.ret.
  assert (load_u64 (h ++ [CU64 0%Z]) x = Some v) as ->.
  { revert Hv. unfold load_u64. destruct (h !! x) as [c|] eqn:Hx; [|done].
    by rewrite (lookup_app_l_Some _ _ _ _ Hx). }
  rewrite decide_True by (rewrite length_app; simpl; lia).
  by rewrite insert_app_r_alt, Nat.sub_diag by done.
Qed.

Lemma dup_big_post h p v :
  big_of h p = Some v ->
  match p with Some x => new_big_set x | None => Mem.ret None end h
    = Some (dup_ptr h v, dup_heap h CBig v).
Proof.
  destruct p as [x|]; simpl.
  - destruct (load_big h x) as [z|] eqn:Hz; [|done]. intros [= <-].
    by apply new_big_set_post.
  - by intros [= <-].
Qed.

Lemma dup_u64_post h p v :
  u64_of h p = Some v ->
  match p with Some x => new_u64_set x | None => Mem.ret None end h
    = Some (dup_ptr h v, dup_heap h CU64 v).
Proof.
  destruct p as [x|]; simpl.
  - destruct (load_u64 h x) as [z|] eqn:Hz; [|done]. intros [= <-].
    by apply new_u64_set_post.
  - by intros [= <-].
Qed.

Lemma dup_heap_extends h c v : extends h (dup_heap h c v).
Proof. destruct v; [apply extends_app|apply extends_refl]. Qed.

Lemma dup_big_read h v : big_of (dup_heap h CBig v) (dup_ptr h v) = Some v.
Proof.
  destruct v as [z|]; [|done]. simpl. unfold load_big.
  by rewrite lookup_app_r, Nat.sub_diag.
Qed.

Lemma dup_u64_read h v : u64_of (dup_heap h CU64 v) (dup_ptr h v) = Some v.
Proof.
  destruct v as [z|]; [|done]. simpl. unfold load_u64.
  by rewrite lookup_app_r, Nat.sub_diag.
Qed.

Lemma dup_ptr_nil h v : dup_ptr h v = None <-> v = None.
Proof. by destruct v. Qed.

(** ** The converter, run *)

(** On readable input the converter returns; the heap grows by the three
    optional pointees, then the transactions, then the withdrawals array. *)
Lemma Convert_run h ed b g x v w :
  readable h ed b g x v w ->
  let h1 := dup_heap h CBig b in
  let h2 := dup_heap h1 CU64 g in
  let h3 := dup_heap h2 CU64 x in
  exists ls lf h4,
    ConvertExecutableDataToRethPayloadV3 ed h
      = Some (wire ed (dup_ptr h b) (dup_ptr h1 g) (dup_ptr h2 x)
                (Slice (length h3) 0 (length ls)) (Slice (length h4) 0 (length w)),
              h4 ++ [CPtrs w]) /\
    extends h h3 /\ extends h3 h4 /\
    length ls = len (engine.Transactions ed) /\
    length v = length ls /\
    h4 !! length h3 = Some (CSlices lf) /\
    Forall2 (copy_of h3 (length h3) h4) ls lf /\
    mapM (bytes_of h3) ls = Some v.
Proof.
  intros [Hb Hg Hx Hv Hw] h1 h2 h3.
  assert (extends h h1) as E1 by apply dup_heap_extends.
  assert (extends h1 h2) as E2 by apply dup_heap_extends.
  assert (extends h2 h3) as E3 by apply dup_heap_extends.
  assert (extends h h3) as E by (eauto using extends_trans).
  destruct (txs_of_headers h3 (engine.Transactions ed) v) as (ls & Hls & Hm & Hall & Hlen);
    [by eapply txs_of_extends|].
  destruct (copyTransactions_post h3 _ ls Hls Hall) as (h4 & lf & Hrun & Hold & Hcell & Hcopy).
  assert (extends h3 h4) as E4.
  { split; [|done]. apply lookup_lt_Some in Hcell. lia. }
  exists ls, lf, h4. split_and!; try done.
  - unfold ConvertExecutableDataToRethPayloadV3, Mem.bind.
    rewrite (dup_big_post h _ b Hb).
    rewrite (dup_u64_post h1 _ g) by (by eapply u64_of_extends).
    rewrite (dup_u64_post h2 _ x) by (eapply u64_of_extends; [|done]; eauto using extends_trans).
    fold h1 h2 h3. rewrite Hrun.
    rewrite (copyWithdrawals_post h4 _ w)
      by (eapply wds_of_extends; [|done]; eauto using extends_trans).
    done.
  - symmetry. by eapply length_mapM.
Qed.

(** The copy of the withdrawals reads back as the source's pointers. *)
Lemma copyWithdrawals_read_back h (withdrawals : option slice) w :
  wds_of h withdrawals = Some w ->
  copyWithdrawals withdrawals h
    = Some (Some (Slice (length h) 0 (length w)), h ++ [CPtrs w]) /\
  wds_of (h ++ [CPtrs w]) (Some (Slice (length h) 0 (length w))) = Some w.
Proof.
  intros Hw. split; [by apply copyWithdrawals_post|].
  unfold wds_of, read_ptrs; simpl.
  rewrite lookup_app_r, Nat.sub_diag by done. apply window_whole.
Qed.

(** ** The status domains *)

Lemma NewPayloadV3_isStatusOk_domain st :
  NewPayloadV3_isStatusOk st = true <-> engine.Status st ∈ submitPayload_domain.
Proof.
  unfold NewPayloadV3_isStatusOk, NewPayloadV3_statusTable, submitPayload_domain.
  unfold engine.VALID, engine.INVALID, engine.SYNCING, engine.ACCEPTED.
  cbn [list_to_map foldr fst snd uncurry]. rewrite !lookup_insert, lookup_empty.
  rewrite !elem_of_cons, elem_of_nil.
  repeat case_decide; simpl; intuition congruence.
Qed.

Lemma ForkchoiceUpdatedV3_isStatusOk_domain resp :
  ForkchoiceUpdatedV3_isStatusOk resp = true
  <-> engine.Status (engine.PayloadStatus resp) ∈ updateHead_domain.
Proof.
  unfold ForkchoiceUpdatedV3_isStatusOk, ForkchoiceUpdatedV3_statusTable, updateHead_domain.
  unfold engine.VALID, engine.INVALID, engine.SYNCING, engine.ACCEPTED.
  cbn [list_to_map foldr fst snd uncurry]. rewrite !lookup_insert, lookup_empty.
  rewrite !elem_of_cons, elem_of_nil.
  repeat case_decide; simpl; intuition congruence.
Qed.

(** ** The Engine API calls: results *)

(** C5. GetPayloadV3 has no ambiguous success: whatever envelope was
    decoded, the call succeeds exactly when the transport error is nil, and
    then returns the decoded envelope; with a transport error it returns a
    nil envelope and the error wrapped as "rpc get payload v3". *)
Theorem GetPayloadV3_no_ambiguous_success c payloadID :
  let reply := CallContext_envelope (cl c) getPayloadV3 payloadID in
  let result := (GetPayloadV3 c payloadID).1 in
  (result.2 = None <-> reply.2 = None) /\
  (reply.2 = None -> result = (Some reply.1, None)) /\
  (forall e, reply.2 = Some e ->
     result = (None, Some (errors.Wrap e "rpc get payload v3" []))).
Proof.
  unfold GetPayloadV3. simpl.
  destruct (CallContext_envelope (cl c) getPayloadV3 payloadID) as [resp [e|]]; simpl.
  - split_and!; [split; discriminate | discriminate | by intros ? [= <-]].
  - split_and!; [done | done | discriminate].
Qed.

(** NewPayloadV3 after the conversion and the remote call. *)
Lemma NewPayloadV3_run c params vh br h rp hf resp err :
  ConvertExecutableDataToRethPayloadV3 params h = Some (rp, hf) ->
  CallContext_status (cl c) newPayloadV3 hf rp vh br = (resp, err) ->
  exists enter,
    (forall ch ep, IncError ch ep ∉ enter) /\
    (forall m e a, LogWarn m e a ∉ enter) /\
    NewPayloadV3 c params vh br h =
      Some (if NewPayloadV3_isStatusOk resp then
              ((resp, None),
               enter ++ match err with
                        | Some e => [LogWarn "Ignoring new_payload_v3 error with proper response"
                                       e [("status", engine.Status resp)]]
                        | None => []
                        end ++ [Latency (chain c) "new_payload_v3"])
            else
              ((engine.zero_PayloadStatusV1,
                Some match err with
                     | Some e => errors.Wrap e "rpc new payload" []
                     | None => errors.New "nil error and unknown status"
                                 [("status", engine.Status resp)]
                     end),
               enter ++ [IncError (chain c) "new_payload_v3";
                         Latency (chain c) "new_payload_v3"]),
            hf).
Proof.
  intros Hconv Hcall.
  exists [LogDebug "Entering NewPayloadV3. Converting standard paylod to Seismic Reth payload"].
  split_and!; cycle 2.
  - unfold NewPayloadV3, Mem.bind, lift, Mem.ret. rewrite Hconv, Hcall. simpl.
    destruct (NewPayloadV3_isStatusOk resp), err; reflexivity.
  - intros ch ep. rewrite elem_of_cons, elem_of_nil. intuition discriminate.
  - intros m e a. rewrite elem_of_cons, elem_of_nil. intuition discriminate.
Qed.

(** ForkchoiceUpdatedV3 after the remote call. *)
Lemma ForkchoiceUpdatedV3_run c update pa resp err :
  CallContext_forkchoice (cl c) forkchoiceUpdatedV3 update pa = (resp, err) ->
  ForkchoiceUpdatedV3 c update pa =
    if ForkchoiceUpdatedV3_isStatusOk resp then
      ((resp, None),
       match err with
       | Some e => [LogWarn "Ignoring forkchoice_updated_v3 error with proper response"
                      e [("status", engine.Status (engine.PayloadStatus resp))]]
       | None => []
       end ++ [Latency (chain c) "forkchoice_updated_v3"])
    else
      ((engine.zero_ForkChoiceResponse,
        Some match err with
             | Some e => errors.Wrap e "rpc forkchoice updated v3" []
             | None => errors.New "nil error and unknown status"
                         [("status", engine.Status (engine.PayloadStatus resp))]
             end),
       [IncError (chain c) "forkchoice_updated_v3";
        Latency (chain c) "forkchoice_updated_v3"]).
Proof.
  intros Hcall. unfold ForkchoiceUpdatedV3. rewrite Hcall. simpl.
  destruct (ForkchoiceUpdatedV3_isStatusOk resp), err; reflexivity.
Qed.

Lemma Convert_total h ed b g x v w :
  readable h ed b g x v w ->
  exists rp hf, ConvertExecutableDataToRethPayloadV3 ed h = Some (rp, hf).
Proof.
  intros R. destruct (Convert_run h ed b g x v w R) as (ls & lf & h4 & Hrun & _).
  eauto.
Qed.

Lemma not_true_false (b : bool) : ~ b = true -> b = false.
Proof. by destruct b. Qed.

(** C1. A status in the capability's valid domain makes the call succeed
    with the decoded response, whatever the transport error: the returned
    error is nil, a non-nil transport error appears in a warning only, and
    no error is counted.  For NewPayloadV3 (on a payload the converter can
    read) and for ForkchoiceUpdatedV3. *)
Theorem in_domain_status_succeeds c h params vh br b g x v w update pa :
  readable h params b g x v w ->
  (exists rp hf,
     ConvertExecutableDataToRethPayloadV3 params h = Some (rp, hf) /\
     forall resp err,
       CallContext_status (cl c) newPayloadV3 hf rp vh br = (resp, err) ->
       engine.Status resp ∈ submitPayload_domain ->
       exists events,
         NewPayloadV3 c params vh br h = Some (((resp, None), events), hf) /\
         (forall e, err = Some e ->
            LogWarn "Ignoring new_payload_v3 error with proper response" e
              [("status", engine.Status resp)] ∈ events) /\
         (err = None -> forall m e a, LogWarn m e a ∉ events) /\
         (forall ch ep, IncError ch ep ∉ events)) /\
  (forall resp err,
     CallContext_forkchoice (cl c) forkchoiceUpdatedV3 update pa = (resp, err) ->
     engine.Status (engine.PayloadStatus resp) ∈ updateHead_domain ->
     exists events,
       ForkchoiceUpdatedV3 c update pa = ((resp, None), events) /\
       (forall e, err = Some e ->
          LogWarn "Ignoring forkchoice_updated_v3 error with proper response" e
            [("status", engine.Status (engine.PayloadStatus resp))] ∈ events) /\
       (err = None -> forall m e a, LogWarn m e a ∉ events) /\
       (forall ch ep, IncError ch ep ∉ events)).
Proof.
  intros R. split.
  - destruct (Convert_total _ _ _ _ _ _ _ R) as (rp & hf & Hconv).
    exists rp, hf. split; [done|]. intros resp err Hcall Hdom.
    destruct (NewPayloadV3_run c _ vh br _ _ _ _ _ Hconv Hcall) as (enter & Hinc & Hwarn & ->).
    rewrite (proj2 (NewPayloadV3_isStatusOk_domain resp) Hdom).
    eexists. split; [reflexivity|]. split_and!.
    + intros e ->. rewrite !elem_of_app, elem_of_cons. auto.
    + intros -> m e a. rewrite !elem_of_app, elem_of_cons, !elem_of_nil.
      specialize (Hwarn m e a). intuition discriminate.
    + intros ch ep. specialize (Hinc ch ep).
      destruct err; rewrite !elem_of_app, !elem_of_cons, !elem_of_nil;
        intuition discriminate.
  - intros resp err Hcall Hdom. rewrite (ForkchoiceUpdatedV3_run _ _ _ _ _ Hcall).
    rewrite (proj2 (ForkchoiceUpdatedV3_isStatusOk_domain resp) Hdom).
    eexists. split; [reflexivity|]. split_and!.
    + intros e ->. rewrite !elem_of_app, elem_of_cons. auto.
    + intros -> m e a. rewrite !elem_of_app, elem_of_cons, !elem_of_nil.
      intuition discriminate.
    + intros ch ep.
      destruct err; rewrite !elem_of_app, !elem_of_cons, !elem_of_nil;
        intuition discriminate.
Qed.

Lemma sample_readable :
  readable sample_heap sample_payload (Some 7%Z) (Some 0%Z) None
    [[xaa]; [xbb]] [Some 7; None].
Proof. split; reflexivity. Defined.

(** Scenario A: SYNCING together with a transport error is a success. *)
Lemma in_domain_status_succeeds_witness :
  readable sample_heap sample_payload (Some 7%Z) (Some 0%Z) None
    [[xaa]; [xbb]] [Some 7; None] /\
  (exists events hf,
     NewPayloadV3 (sample_client "SYNCING" (Some (errors.External "EOF")))
       sample_payload [] None sample_heap
     = Some (((status_of "SYNCING", None), events), hf)) /\
  (exists events,
     ForkchoiceUpdatedV3 (sample_client "SYNCING" (Some (errors.External "EOF")))
       sample_update None
     = ((engine.MkForkChoiceResponse (status_of "SYNCING") None, None), events)).
Proof.
  split; [exact sample_readable|].
  destruct (in_domain_status_succeeds
              (sample_client "SYNCING" (Some (errors.External "EOF")))
              sample_heap sample_payload [] None _ _ _ _ _ sample_update None
              sample_readable) as [(rp & hf & Hconv & Hnew) Hfork].
  split.
  - destruct (Hnew (status_of "SYNCING") (Some (errors.External "EOF")) eq_refl)
      as (events & Hrun & _).
    { unfold submitPayload_domain. rewrite !elem_of_cons. auto. }
    eauto.
  - destruct (Hfork (engine.MkForkChoiceResponse (status_of "SYNCING") None)
                (Some (errors.External "EOF")) eq_refl) as (events & Hrun & _).
    { unfold updateHead_domain. rewrite !elem_of_cons. auto. }
    eauto.
Defined.

(** C3. A status outside the capability's valid domain with a nil
    transport error makes the call fail with the error "nil error and
    unknown status" carrying the status: never a success, and an error that
    has no cause, unlike every wrapped transport error.  ACCEPTED is outside
    the domain of ForkchoiceUpdatedV3. *)
Theorem out_of_domain_nil_error_fails c h params vh br b g x v w update pa :
  readable h params b g x v w ->
  (exists rp hf,
     ConvertExecutableDataToRethPayloadV3 params h = Some (rp, hf) /\
     forall resp,
       CallContext_status (cl c) newPayloadV3 hf rp vh br = (resp, None) ->
       engine.Status resp ∉ submitPayload_domain ->
       exists events failure,
         NewPayloadV3 c params vh br h
           = Some (((engine.zero_PayloadStatusV1, Some failure), events), hf) /\
         failure = errors.New "nil error and unknown status"
                     [("status", engine.Status resp)] /\
         errors.cause failure = None /\
         forall e m a, failure <> errors.Wrap e m a) /\
  (forall resp,
     CallContext_forkchoice (cl c) forkchoiceUpdatedV3 update pa = (resp, None) ->
     engine.Status (engine.PayloadStatus resp) ∉ updateHead_domain ->
     exists events failure,
       ForkchoiceUpdatedV3 c update pa
         = ((engine.zero_ForkChoiceResponse, Some failure), events) /\
       failure = errors.New "nil error and unknown status"
                   [("status", engine.Status (engine.PayloadStatus resp))] /\
       errors.cause failure = None /\
       forall e m a, failure <> errors.Wrap e m a) /\
  engine.ACCEPTED ∉ updateHead_domain.
Proof.
  intros R. split_and!.
  - destruct (Convert_total _ _ _ _ _ _ _ R) as (rp & hf & Hconv).
    exists rp, hf. split; [done|]. intros resp Hcall Hdom.
    destruct (NewPayloadV3_run c _ vh br _ _ _ _ _ Hconv Hcall) as (enter & _ & _ & ->).
    rewrite (not_true_false _ (fun H => Hdom (proj1 (NewPayloadV3_isStatusOk_domain resp) H))).
    eexists _, _. split_and!; [reflexivity..|discriminate].
  - intros resp Hcall Hdom. rewrite (ForkchoiceUpdatedV3_run _ _ _ _ _ Hcall).
    rewrite (not_true_false _
               (fun H => Hdom (proj1 (ForkchoiceUpdatedV3_isStatusOk_domain resp) H))).
    eexists _, _. split_and!; [reflexivity..|discriminate].
  - unfold updateHead_domain. rewrite !elem_of_cons, elem_of_nil.
    unfold engine.ACCEPTED, engine.VALID, engine.INVALID, engine.SYNCING.
    intuition discriminate.
Qed.

(** Scenario B: ForkchoiceUpdatedV3 answered ACCEPTED without a transport
    error. *)
Lemma out_of_domain_nil_error_fails_witness :
  readable sample_heap sample_payload (Some 7%Z) (Some 0%Z) None
    [[xaa]; [xbb]] [Some 7; None] /\
  (exists events hf,
     NewPayloadV3 (sample_client "PENDING" None) sample_payload [] None sample_heap
     = Some (((engine.zero_PayloadStatusV1,
               Some (errors.New "nil error and unknown status" [("status", "PENDING")])),
              events), hf)) /\
  (exists events,
     ForkchoiceUpdatedV3 (sample_client "ACCEPTED" None) sample_update None
     = ((engine.zero_ForkChoiceResponse,
         Some (errors.New "nil error and unknown status" [("status", "ACCEPTED")])),
        events)).
Proof.
  split; [exact sample_readable|]. split.
  - destruct (out_of_domain_nil_error_fails (sample_client "PENDING" None)
                sample_heap sample_payload [] None _ _ _ _ _ sample_update None
                sample_readable) as [(rp & hf & Hconv & Hnew) _].
    destruct (Hnew (status_of "PENDING") eq_refl) as (events & f & Hrun & -> & _).
    { unfold submitPayload_domain. rewrite !elem_of_cons, elem_of_nil.
      unfold engine.ACCEPTED, engine.VALID, engine.INVALID, engine.SYNCING; simpl.
      intuition discriminate. }
    eauto.
  - destruct (out_of_domain_nil_error_fails (sample_client "ACCEPTED" None)
                sample_heap sample_payload [] None _ _ _ _ _ sample_update None
                sample_readable) as (_ & Hfork & Hacc).
    destruct (Hfork (engine.MkForkChoiceResponse (status_of "ACCEPTED") None) eq_refl Hacc)
      as (events & f & Hrun & -> & _).
    eauto.
Defined.

(** C4 as written fails: for status PENDING and transport error "EOF" both
    calls return an error that wraps "EOF" and carries no attribute at all,
    so the status is not on it. *)
Lemma transport_failure_not_annotated :
  outcome (NewPayloadV3 (sample_client "PENDING" (Some (errors.External "EOF")))
             sample_payload [] None sample_heap)
  = Some (engine.zero_PayloadStatusV1,
          Some (errors.Wrap (errors.External "EOF") "rpc new payload" [])) /\
  ~ annotated_transport_failure
      (Some (errors.Wrap (errors.External "EOF") "rpc new payload" []))
      (errors.External "EOF") "PENDING" /\
  ~ annotated_transport_failure
      (ForkchoiceUpdatedV3 (sample_client "PENDING" (Some (errors.External "EOF")))
         sample_update None).1.2
      (errors.External "EOF") "PENDING".
Proof.
  split_and!.
  - vm_compute. reflexivity.
  - intros (f & [= <-] & _ & k & Hk). simpl in Hk. by apply elem_of_nil in Hk.
  - intros (f & [= <-] & _ & k & Hk). simpl in Hk. by apply elem_of_nil in Hk.
Qed.

(** C4, amended. A status outside the capability's valid domain with a
    non-nil transport error makes the call fail with that error wrapped
    under the call's message ("rpc new payload", "rpc forkchoice updated
    v3"); the wrapper adds no attribute, so the failure carries exactly what
    the transport error carried and the status is not attached. *)
Theorem out_of_domain_transport_error_wrapped c h params vh br b g x v w update pa :
  readable h params b g x v w ->
  (exists rp hf,
     ConvertExecutableDataToRethPayloadV3 params h = Some (rp, hf) /\
     forall resp e,
       CallContext_status (cl c) newPayloadV3 hf rp vh br = (resp, Some e) ->
       engine.Status resp ∉ submitPayload_domain ->
       exists events failure,
         NewPayloadV3 c params vh br h
           = Some (((engine.zero_PayloadStatusV1, Some failure), events), hf) /\
         failure = errors.Wrap e "rpc new payload" [] /\
         errors.cause failure = Some e /\
         errors.fields failure = errors.fields e) /\
  (forall resp e,
     CallContext_forkchoice (cl c) forkchoiceUpdatedV3 update pa = (resp, Some e) ->
     engine.Status (engine.PayloadStatus resp) ∉ updateHead_domain ->
     exists events failure,
       ForkchoiceUpdatedV3 c update pa
         = ((engine.zero_ForkChoiceResponse, Some failure), events) /\
       failure = errors.Wrap e "rpc forkchoice updated v3" [] /\
       errors.cause failure = Some e /\
       errors.fields failure = errors.fields e).
Proof.
  intros R. split.
  - destruct (Convert_total _ _ _ _ _ _ _ R) as (rp & hf & Hconv).
    exists rp, hf. split; [done|]. intros resp e Hcall Hdom.
    destruct (NewPayloadV3_run c _ vh br _ _ _ _ _ Hconv Hcall) as (enter & _ & _ & ->).
    rewrite (not_true_false _ (fun H => Hdom (proj1 (NewPayloadV3_isStatusOk_domain resp) H))).
    eexists _, _. split_and!; reflexivity.
  - intros resp e Hcall Hdom. rewrite (ForkchoiceUpdatedV3_run _ _ _ _ _ Hcall).
    rewrite (not_true_false _
               (fun H => Hdom (proj1 (ForkchoiceUpdatedV3_isStatusOk_domain resp) H))).
    eexists _, _. split_and!; reflexivity.
Qed.

Lemma out_of_domain_transport_error_wrapped_witness :
  readable sample_heap sample_payload (Some 7%Z) (Some 0%Z) None
    [[xaa]; [xbb]] [Some 7; None] /\
  (exists events hf,
     NewPayloadV3 (sample_client "" (Some (errors.External "EOF")))
       sample_payload [] None sample_heap
     = Some (((engine.zero_PayloadStatusV1,
               Some (errors.Wrap (errors.External "EOF") "rpc new payload" [])),
              events), hf)) /\
  (exists events,
     ForkchoiceUpdatedV3 (sample_client "ACCEPTED" (Some (errors.External "EOF")))
       sample_update None
     = ((engine.zero_ForkChoiceResponse,
         Some (errors.Wrap (errors.External "EOF") "rpc forkchoice updated v3" [])),
        events)).
Proof.
  split; [exact sample_readable|]. split.
  - destruct (out_of_domain_transport_error_wrapped
                (sample_client "" (Some (errors.External "EOF")))
                sample_heap sample_payload [] None _ _ _ _ _ sample_update None
                sample_readable) as [(rp & hf & Hconv & Hnew) _].
    destruct (Hnew (status_of "") (errors.External "EOF") eq_refl)
      as (events & f & Hrun & -> & _).
    { unfold submitPayload_domain. rewrite !elem_of_cons, elem_of_nil.
      unfold engine.ACCEPTED, engine.VALID, engine.INVALID, engine.SYNCING; simpl.
      intuition discriminate. }
    eauto.
  - destruct (out_of_domain_transport_error_wrapped
                (sample_client "ACCEPTED" (Some (errors.External "EOF")))
                sample_heap sample_payload [] None _ _ _ _ _ sample_update None
                sample_readable) as [_ Hfork].
    destruct (Hfork (engine.MkForkChoiceResponse (status_of "ACCEPTED") None)
                (errors.External "EOF") eq_refl) as (events & f & Hrun & -> & _).
    { unfold updateHead_domain. rewrite !elem_of_cons, elem_of_nil.
      unfold engine.ACCEPTED, engine.VALID, engine.INVALID, engine.SYNCING; simpl.
      intuition discriminate. }
    eauto.
Defined.

(** C9 as written fails in its last part: on the failure without a
    transport error the caller does observe decoded content, the status,
    which the error carries.  Two peers that differ in nothing but the
    unknown status they answer give the caller different results. *)
Lemma failure_reveals_status :
  outcome (NewPayloadV3 (sample_client "PENDING" None) sample_payload [] None sample_heap)
  = Some (engine.zero_PayloadStatusV1,
          Some (errors.New "nil error and unknown status" [("status", "PENDING")])) /\
  outcome (NewPayloadV3 (sample_client "BOGUS" None) sample_payload [] None sample_heap)
  = Some (engine.zero_PayloadStatusV1,
          Some (errors.New "nil error and unknown status" [("status", "BOGUS")])) /\
  outcome (NewPayloadV3 (sample_client "PENDING" None) sample_payload [] None sample_heap)
  <> outcome (NewPayloadV3 (sample_client "BOGUS" None) sample_payload [] None sample_heap) /\
  (ForkchoiceUpdatedV3 (sample_client "ACCEPTED" None) sample_update None).1
  <> (ForkchoiceUpdatedV3 (sample_client "BOGUS" None) sample_update None).1.
Proof. split_and!; [vm_compute; reflexivity..|vm_compute; discriminate|discriminate]. Qed.

(** C9, amended. Whatever the remote call produced, NewPayloadV3 and
    ForkchoiceUpdatedV3 return an error exactly when the status is outside
    the valid domain, and then the response they return is the zero value,
    not the decoded one; of the decoded response the error carries the
    status string only, and only when there was no transport error. *)
Theorem failure_returns_zero_response c h params vh br b g x v w update pa :
  readable h params b g x v w ->
  (exists rp hf,
     ConvertExecutableDataToRethPayloadV3 params h = Some (rp, hf) /\
     forall resp err,
       CallContext_status (cl c) newPayloadV3 hf rp vh br = (resp, err) ->
       exists r failure events,
         NewPayloadV3 c params vh br h = Some (((r, failure), events), hf) /\
         (failure = None <-> engine.Status resp ∈ submitPayload_domain) /\
         (failure <> None ->
            r = engine.zero_PayloadStatusV1 /\
            failure = Some match err with
                           | Some e => errors.Wrap e "rpc new payload" []
                           | None => errors.New "nil error and unknown status"
                                       [("status", engine.Status resp)]
                           end)) /\
  (forall resp err,
     CallContext_forkchoice (cl c) forkchoiceUpdatedV3 update pa = (resp, err) ->
     exists r failure events,
       ForkchoiceUpdatedV3 c update pa = ((r, failure), events) /\
       (failure = None <-> engine.Status (engine.PayloadStatus resp) ∈ updateHead_domain) /\
       (failure <> None ->
          r = engine.zero_ForkChoiceResponse /\
          failure = Some match err with
                         | Some e => errors.Wrap e "rpc forkchoice updated v3" []
                         | None => errors.New "nil error and unknown status"
                                     [("status", engine.Status (engine.PayloadStatus resp))]
                         end)).
Proof.
  intros R. split.
  - destruct (Convert_total _ _ _ _ _ _ _ R) as (rp & hf & Hconv).
    exists rp, hf. split; [done|]. intros resp err Hcall.
    destruct (NewPayloadV3_run c _ vh br _ _ _ _ _ Hconv Hcall) as (enter & _ & _ & ->).
    pose proof (NewPayloadV3_isStatusOk_domain resp) as Hdom.
    destruct (NewPayloadV3_isStatusOk resp); eexists _, _, _; (split; [reflexivity|]).
    + split; [tauto|done].
    + split; [|done]. split; [discriminate|]. intros Hin. apply Hdom in Hin. discriminate.
  - intros resp err Hcall. rewrite (ForkchoiceUpdatedV3_run _ _ _ _ _ Hcall).
    pose proof (ForkchoiceUpdatedV3_isStatusOk_domain resp) as Hdom.
    destruct (ForkchoiceUpdatedV3_isStatusOk resp); eexists _, _, _; (split; [reflexivity|]).
    + split; [tauto|done].
    + split; [|done]. split; [discriminate|]. intros Hin. apply Hdom in Hin. discriminate.
Qed.

(** An unknown status without a transport error, and ACCEPTED for a head
    update with one: both calls return the zero response. *)
Lemma failure_returns_zero_response_witness :
  readable sample_heap sample_payload (Some 7%Z) (Some 0%Z) None
    [[xaa]; [xbb]] [Some 7; None] /\
  (exists failure events hf,
     NewPayloadV3 (sample_client "PENDING" None) sample_payload [] None sample_heap
     = Some (((engine.zero_PayloadStatusV1, Some failure), events), hf)) /\
  (exists failure events,
     ForkchoiceUpdatedV3 (sample_client "ACCEPTED" (Some (errors.External "EOF")))
       sample_update None
     = ((engine.zero_ForkChoiceResponse, Some failure), events)).
Proof.
  split; [exact sample_readable|]. split.
  - destruct (failure_returns_zero_response (sample_client "PENDING" None)
                sample_heap sample_payload [] None _ _ _ _ _ sample_update None
                sample_readable) as [(rp & hf & Hconv & Hnew) _].
    destruct (Hnew (status_of "PENDING") None eq_refl)
      as (r & [f|] & events & Hrun & Hdom & Hzero).
    + rewrite (proj1 (Hzero ltac:(discriminate))) in Hrun. eauto.
    + exfalso. destruct Hdom as [Hdom _]. specialize (Hdom eq_refl).
      revert Hdom. unfold submitPayload_domain. rewrite !elem_of_cons, elem_of_nil.
      unfold engine.ACCEPTED, engine.VALID, engine.INVALID, engine.SYNCING; simpl.
      intuition discriminate.
  - destruct (failure_returns_zero_response
                (sample_client "ACCEPTED" (Some (errors.External "EOF")))
                sample_heap sample_payload [] None _ _ _ _ _ sample_update None
                sample_readable) as [_ Hfork].
    destruct (Hfork (engine.MkForkChoiceResponse (status_of "ACCEPTED") None)
                (Some (errors.External "EOF")) eq_refl)
      as (r & [f|] & events & Hrun & Hdom & Hzero).
    + rewrite (proj1 (Hzero ltac:(discriminate))) in Hrun. eauto.
    + exfalso. destruct Hdom as [Hdom _]. specialize (Hdom eq_refl).
      revert Hdom. unfold updateHead_domain. rewrite !elem_of_cons, elem_of_nil.
      unfold engine.ACCEPTED, engine.VALID, engine.INVALID, engine.SYNCING; simpl.
      intuition discriminate.
Defined.

(** ** The converter: results *)

(** C6. On a readable transactions slice copyTransactions returns a
    non-nil slice of the same length that reads byte for byte like the
    source.  Its array and the arrays of its elements are allocated by the
    call, so whatever is written afterwards to storage that existed before
    the call, the source's bytes included, the copy reads the same.  A nil
    source gives a non-nil slice of length 0. *)
Theorem copyTransactions_deep_copy h (transactions : option slice) v :
  txs_of h transactions = Some v ->
  exists r hf,
    copyTransactions transactions h = Some (Some r, hf) /\
    s_len r = len transactions /\
    txs_of hf (Some r) = Some v /\
    txs_of hf transactions = Some v /\
    length h <= s_arr r /\
    (forall l t, read_slices hf r = Some l -> Some t ∈ l -> length h <= s_arr t) /\
    (forall a c, a < length h -> txs_of (<[a := c]> hf) (Some r) = Some v) /\
    (forall h2, agree (fun a => length h <= a) hf h2 -> txs_of h2 (Some r) = Some v).
Proof.
  intros Hv.
  destruct (txs_of_headers h transactions v Hv) as (ls & Hls & Hm & Hall & Hlen).
  destruct (copyTransactions_post h _ ls Hls Hall) as (hf & lf & Hrun & Hold & Hcell & Hcopy).
  pose proof (copied_txs_read h _ hf ls lf v Hcell Hcopy Hm) as Hread.
  assert (forall h2, agree (fun a => length h <= a) hf h2 ->
                     txs_of h2 (Some (Slice (length h) 0 (length ls))) = Some v) as Hframe.
  { intros h2 Hag. rewrite <- Hread. eapply copied_txs_frame; [done..|].
    intros a [Ha _]. by apply Hag. }
  exists (Slice (length h) 0 (length ls)), hf. split_and!; try done.
  - by eapply txs_of_old.
  - intros l t Hl Ht. unfold read_slices in Hl; simpl in Hl.
    rewrite Hcell, (Forall2_length _ _ _ Hcopy), window_whole in Hl.
    injection Hl as <-. apply list_elem_of_lookup in Ht as [j Hj].
    destruct (Forall2_lookup_r _ _ _ _ _ Hcopy Hj) as (e & _ & Hc).
    by eapply copy_of_fresh.
  - intros a c Ha. apply Hframe. intros a' Ha'.
    by rewrite list_lookup_insert_ne by lia.
Qed.

(** Scenario C: the transactions 0xAA and 0xBB are copied; overwriting the
    source's 0xAA afterwards leaves the copy as it was. *)
Lemma copyTransactions_deep_copy_witness :
  txs_of sample_heap (Some (Slice 2 0 2)) = Some [[xaa]; [xbb]] /\
  exists r hf,
    copyTransactions (Some (Slice 2 0 2)) sample_heap = Some (Some r, hf) /\
    s_len r = 2 /\
    txs_of (<[0 := CBytes [xff]]> hf) (Some (Slice 2 0 2)) = Some [[xff]; [xbb]] /\
    txs_of (<[0 := CBytes [xff]]> hf) (Some r) = Some [[xaa]; [xbb]].
Proof.
  split; [reflexivity|].
  destruct (copyTransactions_deep_copy sample_heap (Some (Slice 2 0 2)) [[xaa]; [xbb]] eq_refl)
    as (r & hf & Hrun & Hlen & _ & _ & _ & _ & Hwrite & _).
  exists r, hf. split_and!; [done|done| |apply Hwrite; simpl; lia].
  vm_compute in Hrun. injection Hrun as <- <-. reflexivity.
Defined.

(** C8. On a readable withdrawals slice copyWithdrawals allocates one
    array, returns a non-nil slice of the same length over it, and element
    by element the array holds the very pointers of the source: no
    withdrawal record is allocated.  A nil source gives a non-nil slice of
    length 0. *)
Theorem copyWithdrawals_shallow_copy h (withdrawals : option slice) w :
  wds_of h withdrawals = Some w ->
  exists r,
    copyWithdrawals withdrawals h = Some (Some r, h ++ [CPtrs w]) /\
    s_arr r = length h /\
    s_len r = len withdrawals /\
    wds_of (h ++ [CPtrs w]) (Some r) = Some w /\
    wds_of (h ++ [CPtrs w]) withdrawals = Some w.
Proof.
  intros Hw. exists (Slice (length h) 0 (length w)). split_and!.
  - by apply copyWithdrawals_post.
  - done.
  - destruct withdrawals as [src|]; simpl in *.
    + by eapply read_ptrs_length.
    + by injection Hw as <-.
  - unfold wds_of, read_ptrs; simpl.
    rewrite lookup_app_r, Nat.sub_diag by done. apply window_whole.
  - eapply wds_of_extends; [apply extends_app|done].
Qed.

Lemma copyWithdrawals_shallow_copy_witness :
  wds_of sample_heap (Some (Slice 8 0 2)) = Some [Some 7; None] /\
  copyWithdrawals (Some (Slice 8 0 2)) sample_heap
    = Some (Some (Slice 9 0 2), sample_heap ++ [CPtrs [Some 7; None]]) /\
  copyWithdrawals None sample_heap
    = Some (Some (Slice 9 0 0), sample_heap ++ [CPtrs []]).
Proof.
  split; [reflexivity|]. split.
  - destruct (copyWithdrawals_shallow_copy sample_heap (Some (Slice 8 0 2))
                [Some 7; None] eq_refl) as ([a o n] & Hrun & Ha & Hn & _).
    simpl in Ha, Hn. subst a n. rewrite Hrun.
    vm_compute in Hrun. injection Hrun as <-. reflexivity.
  - reflexivity.
Defined.

(** C10 as written fails for copyTransactions: a transaction that is not
    nil and has no bytes comes out nil, because appending nothing to a nil
    slice leaves it nil. *)
Lemma copyTransactions_empty_becomes_nil :
  tx_headers empty_tx_heap (Some (Slice 1 0 1)) = Some [Some (Slice 0 0 0)] /\
  exists hf,
    copyTransactions (Some (Slice 1 0 1)) empty_tx_heap = Some (Some (Slice 2 0 1), hf) /\
    tx_headers hf (Some (Slice 2 0 1)) = Some [None].
Proof. split; [reflexivity|]. eexists. split; reflexivity. Qed.

(** C10, amended. In the copy made by copyTransactions a nil element stays
    nil and an element with at least one byte is never nil; in the copy made
    by copyWithdrawals the element at each index is nil exactly when the
    source's is. *)
Theorem copies_preserve_nil_elements h (s : option slice) :
  (forall v, txs_of h s = Some v ->
     exists r hf ls lf,
       copyTransactions s h = Some (Some r, hf) /\
       tx_headers h s = Some ls /\
       tx_headers hf (Some r) = Some lf /\
       length lf = length ls /\
       forall i,
         (ls !! i = Some None -> lf !! i = Some None) /\
         (forall t b bs, ls !! i = Some (Some t) -> read_bytes h t = Some (b :: bs) ->
                         exists u, lf !! i = Some (Some u))) /\
  (forall w, wds_of h s = Some w ->
     exists r hf w',
       copyWithdrawals s h = Some (Some r, hf) /\
       wds_of hf (Some r) = Some w' /\
       length w' = length w /\
       forall i, w' !! i = Some None <-> w !! i = Some None).
Proof.
  split.
  - intros v Hv.
    destruct (txs_of_headers h s v Hv) as (ls & Hls & Hm & Hall & Hlen).
    destruct (copyTransactions_post h _ ls Hls Hall) as (hf & lf & Hrun & Hold & Hcell & Hcopy).
    exists (Slice (length h) 0 (length ls)), hf, ls, lf. split_and!; try done.
    + unfold tx_headers, read_slices; simpl.
      rewrite Hcell, (Forall2_length _ _ _ Hcopy). apply window_whole.
    + symmetry. by eapply Forall2_length.
    + intros i. split.
      * intros Hi. destruct (Forall2_lookup_l _ _ _ _ _ Hcopy Hi) as ([u|] & Hu & Hc);
          [done|exact Hu].
      * intros t b bs Hi Hb.
        destruct (Forall2_lookup_l _ _ _ _ _ Hcopy Hi) as ([u|] & Hu & Hc); [eauto|].
        simpl in Hc. congruence.
  - intros w Hw.
    destruct (copyWithdrawals_read_back h s w Hw) as (Hrun & Hread).
    exists (Slice (length h) 0 (length w)), (h ++ [CPtrs w]), w. by split_and!.
Qed.

Lemma copies_preserve_nil_elements_witness :
  txs_of sample_heap (Some (Slice 2 0 2)) = Some [[xaa]; [xbb]] /\
  wds_of sample_heap (Some (Slice 8 0 2)) = Some [Some 7; None] /\
  (exists r hf lf,
     copyTransactions (Some (Slice 2 0 2)) sample_heap = Some (Some r, hf) /\
     tx_headers hf (Some r) = Some lf /\ exists u, lf !! 0 = Some (Some u)) /\
  (exists r hf w',
     copyWithdrawals (Some (Slice 8 0 2)) sample_heap = Some (Some r, hf) /\
     wds_of hf (Some r) = Some w' /\ w' !! 1 = Some None).
Proof.
  split; [reflexivity|]. split; [reflexivity|]. split.
  - destruct (proj1 (copies_preserve_nil_elements sample_heap (Some (Slice 2 0 2)))
                [[xaa]; [xbb]] eq_refl)
      as (r & hf & ls & lf & Hrun & Hls & Hlf & _ & Hi).
    injection Hls as <-.
    destruct (proj2 (Hi 0) (Slice 0 0 1) xaa [] eq_refl eq_refl) as [u Hu].
    eauto 10.
  - destruct (proj2 (copies_preserve_nil_elements sample_heap (Some (Slice 8 0 2)))
                [Some 7; None] eq_refl)
      as (r & hf & w' & Hrun & Hw' & _ & Hi).
    exists r, hf, w'. split_and!; [done..|]. by apply Hi.
Defined.

Lemma view_nil_iff {A} (read : option nat -> option (option A)) p v :
  (read None = Some None) ->
  (forall a, exists o, read (Some a) = Some <$> o) ->
  read p = Some v -> (v = None <-> p = None).
Proof.
  intros Hnil Hsome Hv. destruct p as [a|].
  - destruct (Hsome a) as [[z|] Hz]; rewrite Hz in Hv; simpl in Hv; [|done].
    injection Hv as <-. split; discriminate.
  - rewrite Hnil in Hv. injection Hv as <-. done.
Qed.

Lemma big_of_nil_iff h p v : big_of h p = Some v -> (v = None <-> p = None).
Proof.
  apply (view_nil_iff (big_of h)); [done|]. intros a. by exists (load_big h a).
Qed.

Lemma u64_of_nil_iff h p v : u64_of h p = Some v -> (v = None <-> p = None).
Proof.
  apply (view_nil_iff (u64_of h)); [done|]. intros a. by exists (load_u64 h a).
Qed.

(** C7. In the converted payload each of BaseFeePerGas, BlobGasUsed and
    ExcessBlobGas is nil exactly when it is nil in the input; when it is
    not, it points to a cell allocated by the conversion, and it reads as
    the input's field read before the conversion: absent as absent, a
    present zero as a present zero. *)
Theorem optional_fields_reallocated h ed b g x v w :
  readable h ed b g x v w ->
  exists rp hf,
    ConvertExecutableDataToRethPayloadV3 ed h = Some (rp, hf) /\
    (BaseFeePerGas rp = None <-> engine.BaseFeePerGas ed = None) /\
    (BlobGasUsed rp = None <-> engine.BlobGasUsed ed = None) /\
    (ExcessBlobGas rp = None <-> engine.ExcessBlobGas ed = None) /\
    (forall a, BaseFeePerGas rp = Some a \/ BlobGasUsed rp = Some a
               \/ ExcessBlobGas rp = Some a ->
               length h <= a < length hf) /\
    big_of hf (BaseFeePerGas rp) = Some b /\
    u64_of hf (BlobGasUsed rp) = Some g /\
    u64_of hf (ExcessBlobGas rp) = Some x /\
    big_of hf (engine.BaseFeePerGas ed) = Some b /\
    u64_of hf (engine.BlobGasUsed ed) = Some g /\
    u64_of hf (engine.ExcessBlobGas ed) = Some x.
Proof.
  intros R. pose proof R as [Hb Hg Hx _ _].
  destruct (Convert_run h ed b g x v w R) as (ls & lf & h4 & Hrun & E3 & E4 & _).
  set (h1 := dup_heap h CBig b) in *.
  set (h2 := dup_heap h1 CU64 g) in *.
  set (h3 := dup_heap h2 CU64 x) in *.
  assert (extends h h1) as E01 by apply dup_heap_extends.
  assert (extends h1 h2) as E12 by apply dup_heap_extends.
  assert (extends h2 h3) as E23 by apply dup_heap_extends.
  assert (extends h4 (h4 ++ [CPtrs w])) as E45 by apply extends_app.
  assert (extends h3 (h4 ++ [CPtrs w])) as E35 by eauto using extends_trans.
  assert (extends h2 (h4 ++ [CPtrs w])) as E25 by eauto using extends_trans.
  assert (extends h1 (h4 ++ [CPtrs w])) as E15 by eauto using extends_trans.
  assert (extends h (h4 ++ [CPtrs w])) as E05 by eauto using extends_trans.
  eexists _, _. split; [exact Hrun|]. simpl. split_and!.
  - rewrite dup_ptr_nil. by apply (big_of_nil_iff h).
  - rewrite dup_ptr_nil. by apply (u64_of_nil_iff h).
  - rewrite dup_ptr_nil. by apply (u64_of_nil_iff h).
  - intros a [Ha|[Ha|Ha]].
    + destruct b as [z|]; [|done]. injection Ha as <-. split; [lia|].
      assert (h1 !! length h = Some (CBig z)) as Hc
        by (subst h1; simpl; by rewrite lookup_app_r, Nat.sub_diag).
      eapply lookup_lt_Some, extends_lookup; [exact E15|exact Hc].
    + destruct g as [z|]; [|done]. injection Ha as <-. split; [apply E01|].
      assert (h2 !! length h1 = Some (CU64 z)) as Hc
        by (subst h2; simpl; by rewrite lookup_app_r, Nat.sub_diag).
      eapply lookup_lt_Some, extends_lookup; [exact E25|exact Hc].
    + destruct x as [z|]; [|done]. injection Ha as <-.
      split; [destruct E01, E12; lia|].
      assert (h3 !! length h2 = Some (CU64 z)) as Hc
        by (subst h3; simpl; by rewrite lookup_app_r, Nat.sub_diag).
      eapply lookup_lt_Some, extends_lookup; [exact E35|exact Hc].
  - eapply big_of_extends; [exact E15|apply dup_big_read].
  - eapply u64_of_extends; [exact E25|apply dup_u64_read].
  - eapply u64_of_extends; [exact E35|apply dup_u64_read].
  - by eapply big_of_extends.
  - by eapply u64_of_extends.
  - by eapply u64_of_extends.
Qed.

(** The sample payload has a base fee of 7, a blob gas counter that is
    present and zero, and no excess blob gas: so has its conversion. *)
Lemma optional_fields_reallocated_witness :
  readable sample_heap sample_payload (Some 7%Z) (Some 0%Z) None
    [[xaa]; [xbb]] [Some 7; None] /\
  exists rp hf,
    ConvertExecutableDataToRethPayloadV3 sample_payload sample_heap = Some (rp, hf) /\
    big_of hf (BaseFeePerGas rp) = Some (Some 7%Z) /\
    u64_of hf (BlobGasUsed rp) = Some (Some 0%Z) /\
    u64_of hf (ExcessBlobGas rp) = Some None /\
    BaseFeePerGas rp <> engine.BaseFeePerGas sample_payload.
Proof.
  split; [exact sample_readable|].
  destruct (optional_fields_reallocated sample_heap sample_payload _ _ _ _ _ sample_readable)
    as (rp & hf & Hrun & _ & _ & _ & Hfresh & Hb & Hg & Hx & _).
  exists rp, hf. split_and!; [done..|].
  intros Heq. specialize (Hfresh 6 (or_introl Heq)). simpl in Hfresh. lia.
Defined.

(** C2 as written fails: LogsBloom and ExtraData of the converted payload
    are the input's slices.  After the conversion of the sample payload a
    write to the input's bloom array (address 3) or extra data (address 4)
    changes what the wire payload's field reads. *)
Lemma LogsBloom_ExtraData_shared :
  exists rp hf,
    ConvertExecutableDataToRethPayloadV3 sample_payload sample_heap = Some (rp, hf) /\
    LogsBloom rp = engine.LogsBloom sample_payload /\
    ExtraData rp = engine.ExtraData sample_payload /\
    bytes_of hf (LogsBloom rp) = Some [x01; x02] /\
    bytes_of (<[3 := CBytes [xff; x02]]> hf) (LogsBloom rp) = Some [xff; x02] /\
    bytes_of hf (ExtraData rp) = Some [x03] /\
    bytes_of (<[4 := CBytes [xff]]> hf) (ExtraData rp) = Some [xff].
Proof.
  destruct (ConvertExecutableDataToRethPayloadV3 sample_payload sample_heap)
    as [[rp hf]|] eqn:Hrun; vm_compute in Hrun; [|discriminate].
  injection Hrun as <- <-. eexists _, _. split; [reflexivity|].
  split_and!; reflexivity.
Qed.

(** C2, amended. The Transactions and Withdrawals slices of the converted
    payload, and the bytes of every transaction in it, lie in storage
    allocated by the conversion: they read the same whatever is written
    afterwards to storage that existed before, and the input's transactions
    and withdrawals read the same whatever is written to storage allocated
    by the conversion.  LogsBloom and ExtraData are the input's slices, over
    the input's arrays. *)
Theorem converted_slices_storage h ed b g x v w :
  readable h ed b g x v w ->
  exists rp hf,
    ConvertExecutableDataToRethPayloadV3 ed h = Some (rp, hf) /\
    LogsBloom rp = engine.LogsBloom ed /\
    ExtraData rp = engine.ExtraData ed /\
    len (Transactions rp) = len (engine.Transactions ed) /\
    len (Withdrawals rp) = len (engine.Withdrawals ed) /\
    (forall h2, agree (fun a => length h <= a) hf h2 ->
       txs_of h2 (Transactions rp) = Some v /\
       wds_of h2 (Withdrawals rp) = Some w) /\
    (forall h2, agree (fun a => a < length h) hf h2 ->
       txs_of h2 (engine.Transactions ed) = Some v /\
       wds_of h2 (engine.Withdrawals ed) = Some w).
Proof.
  intros R. pose proof R as [_ _ _ Hv Hw].
  destruct (Convert_run h ed b g x v w R)
    as (ls & lf & h4 & Hrun & E3 & E4 & Hlen & Hvl & Hcell & Hcopy & Hm).
  set (h3 := dup_heap (dup_heap (dup_heap h CBig b) CU64 g) CU64 x) in *.
  assert (extends h (h4 ++ [CPtrs w])) as E
    by (eapply extends_trans; [|apply extends_app]; eauto using extends_trans).
  eexists _, _. split; [exact Hrun|]. simpl. split_and!; try done.
  - destruct (engine.Withdrawals ed) as [src|]; simpl in *.
    + by eapply read_ptrs_length.
    + by injection Hw as <-.
  - intros h2 Hag. split.
    + rewrite <- (copied_txs_read h3 _ h4 ls lf v Hcell Hcopy Hm).
      eapply copied_txs_frame; [done..|]. intros a [Ha Ha4].
      rewrite <- Hag by (destruct E3; lia). by rewrite lookup_app_l.
    + unfold wds_of, read_ptrs; simpl.
      rewrite <- Hag by (destruct E3, E4; lia).
      rewrite lookup_app_r, Nat.sub_diag by done. apply window_whole.
  - intros h2 Hag. pose proof (agree_below_extends _ _ _ E Hag) as E2. split.
    + by eapply txs_of_extends.
    + by eapply wds_of_extends.
Qed.

(** The sample payload's transactions are copied: a write to the source's
    0xAA (address 0) does not reach the wire payload. *)
Lemma converted_slices_storage_witness :
  readable sample_heap sample_payload (Some 7%Z) (Some 0%Z) None
    [[xaa]; [xbb]] [Some 7; None] /\
  exists rp hf,
    ConvertExecutableDataToRethPayloadV3 sample_payload sample_heap = Some (rp, hf) /\
    txs_of (<[0 := CBytes [xff]]> hf) (Transactions rp) = Some [[xaa]; [xbb]] /\
    wds_of (<[8 := CPtrs [None; None]]> hf) (Withdrawals rp) = Some [Some 7; None].
Proof.
  split; [exact sample_readable|].
  destruct (converted_slices_storage sample_heap sample_payload _ _ _ _ _ sample_readable)
    as (rp & hf & Hrun & _ & _ & _ & _ & Hwire & _).
  exists rp, hf. split; [done|]. split.
  - apply (Hwire (<[0 := CBytes [xff]]> hf)). intros a Ha. simpl in Ha.
    by rewrite list_lookup_insert_ne by lia.
  - apply (Hwire (<[8 := CPtrs [None; None]]> hf)). intros a Ha. simpl in Ha.
    by rewrite list_lookup_insert_ne by lia.
Defined.

(** ** The Engine API calls: further properties *)

Lemma NewPayloadV3_unfold c params vh br h rp hf :
  ConvertExecutableDataToRethPayloadV3 params h = Some (rp, hf) ->
  NewPayloadV3 c params vh br h =
    let reply := CallContext_status (cl c) "engine_newPayloadV3" hf rp vh br in
    Some (if NewPayloadV3_isStatusOk reply.1 then
            ((reply.1, None),
             [LogDebug "Entering NewPayloadV3. Converting standard paylod to Seismic Reth payload"]
             ++ match reply.2 with
                | Some e => [LogWarn "Ignoring new_payload_v3 error with proper response"
                               e [("status", engine.Status reply.1)]]
                | None => []
                end ++ [Latency (chain c) "new_payload_v3"])
          else
            ((engine.zero_PayloadStatusV1,
              Some match reply.2 with
                   | Some e => errors.Wrap e "rpc new payload" []
                   | None => errors.New "nil error and unknown status"
                               [("status", engine.Status reply.1)]
                   end),
             [LogDebug "Entering NewPayloadV3. Converting standard paylod to Seismic Reth payload";
              IncError (chain c) "new_payload_v3"; Latency (chain c) "new_payload_v3"]),
          hf).
Proof.
  intros Hconv. unfold NewPayloadV3, Mem.bind, lift, Mem.ret. rewrite Hconv. simpl.
  change newPayloadV3 with "engine_newPayloadV3".
  destruct (CallContext_status (cl c) "engine_newPayloadV3" hf rp vh br) as [resp err]. simpl.
  destruct (NewPayloadV3_isStatusOk resp), err; reflexivity.
Qed.

(** X1. Every call reports to the metrics under its own endpoint label and
    the client's chain: the latency once, as the last thing it does, and an
    error count once exactly when it returns an error, never on success. *)
Theorem calls_are_instrumented c h params vh br b g x v w update pa payloadID :
  readable h params b g x v w ->
  (exists r failure events hf,
     NewPayloadV3 c params vh br h = Some (((r, failure), events), hf) /\
     instrumented (chain c) "new_payload_v3" (bool_decide (failure <> None)) events) /\
  (exists r failure events,
     ForkchoiceUpdatedV3 c update pa = ((r, failure), events) /\
     instrumented (chain c) "forkchoice_updated_v3" (bool_decide (failure <> None)) events) /\
  (exists r failure events,
     GetPayloadV3 c payloadID = ((r, failure), events) /\
     instrumented (chain c) "get_payload_v3" (bool_decide (failure <> None)) events).
Proof.
  intros R. split_and!.
  - destruct (Convert_total _ _ _ _ _ _ _ R) as (rp & hf & Hconv).
    rewrite (NewPayloadV3_unfold c _ vh br _ _ _ Hconv). cbv zeta.
    destruct (CallContext_status (cl c) "engine_newPayloadV3" hf rp vh br) as [resp err].
    simpl. destruct (NewPayloadV3_isStatusOk resp), err;
      eexists _, _, _, _; (split; [reflexivity|]);
      (split_and!; [reflexivity..|]);
      intros ch' ep' H; apply list_elem_of_In in H; simpl in H;
      repeat destruct H as [H|H]; try discriminate; try done;
      by injection H as <- <-.
  - unfold ForkchoiceUpdatedV3.
    destruct (CallContext_forkchoice (cl c) forkchoiceUpdatedV3 update pa) as [resp err].
    simpl. destruct (ForkchoiceUpdatedV3_isStatusOk resp), err;
      eexists _, _, _; (split; [reflexivity|]);
      (split_and!; [reflexivity..|]);
      intros ch' ep' H; apply list_elem_of_In in H; simpl in H;
      repeat destruct H as [H|H]; try discriminate; try done;
      by injection H as <- <-.
  - unfold GetPayloadV3.
    destruct (CallContext_envelope (cl c) getPayloadV3 payloadID) as [resp err].
    simpl. destruct err;
      eexists _, _, _; (split; [reflexivity|]);
      (split_and!; [reflexivity..|]);
      intros ch' ep' H; apply list_elem_of_In in H; simpl in H;
      repeat destruct H as [H|H]; try discriminate; try done;
      by injection H as <- <-.
Qed.

Lemma calls_are_instrumented_witness :
  readable sample_heap sample_payload (Some 7%Z) (Some 0%Z) None
    [[xaa]; [xbb]] [Some 7; None] /\
  exists r failure events hf,
    NewPayloadV3 (sample_client "SYNCING" (Some (errors.External "EOF")))
      sample_payload [] None sample_heap = Some (((r, failure), events), hf) /\
    count_events is_IncError events
    = (if bool_decide (failure <> None) then 1 else 0).
Proof.
  split; [exact sample_readable|].
  destruct (calls_are_instrumented
              (sample_client "SYNCING" (Some (errors.External "EOF")))
              sample_heap sample_payload [] None _ _ _ _ _ sample_update None 0%Z
              sample_readable) as [(r & failure & events & hf & Hrun & _ & _ & Hinc & _) _].
  eauto 10.
Defined.

(** X2. When nothing was decoded, so that the response is still the zero
    value with its empty status, neither call succeeds: a transport error
    comes back wrapped, and without one the caller gets "nil error and
    unknown status" with an empty status. *)
Theorem empty_response_fails c h params vh br b g x v w update pa :
  readable h params b g x v w ->
  (exists rp hf,
     ConvertExecutableDataToRethPayloadV3 params h = Some (rp, hf) /\
     forall err,
       CallContext_status (cl c) "engine_newPayloadV3" hf rp vh br
       = (engine.zero_PayloadStatusV1, err) ->
       outcome (NewPayloadV3 c params vh br h)
       = Some (engine.zero_PayloadStatusV1,
               Some match err with
                    | Some e => errors.Wrap e "rpc new payload" []
                    | None => errors.New "nil error and unknown status" [("status", "")]
                    end)) /\
  (forall err,
     CallContext_forkchoice (cl c) "engine_forkchoiceUpdatedV3" update pa
     = (engine.zero_ForkChoiceResponse, err) ->
     (ForkchoiceUpdatedV3 c update pa).1
     = (engine.zero_ForkChoiceResponse,
        Some match err with
             | Some e => errors.Wrap e "rpc forkchoice updated v3" []
             | None => errors.New "nil error and unknown status" [("status", "")]
             end)).
Proof.
  intros R. split.
  - destruct (Convert_total _ _ _ _ _ _ _ R) as (rp & hf & Hconv).
    exists rp, hf. split; [done|]. intros err Hcall.
    rewrite (NewPayloadV3_unfold c _ vh br _ _ _ Hconv), Hcall.
    by destruct err.
  - intros err Hcall. rewrite (ForkchoiceUpdatedV3_run _ _ _ _ _ Hcall).
    by destruct err.
Qed.

Lemma empty_response_fails_witness :
  readable sample_heap sample_payload (Some 7%Z) (Some 0%Z) None
    [[xaa]; [xbb]] [Some 7; None] /\
  outcome (NewPayloadV3 (sample_client "" (Some (errors.External "connection refused")))
             sample_payload [] None sample_heap)
  = Some (engine.zero_PayloadStatusV1,
          Some (errors.Wrap (errors.External "connection refused") "rpc new payload" [])) /\
  (ForkchoiceUpdatedV3 (sample_client "" None) sample_update None).1
  = (engine.zero_ForkChoiceResponse,
     Some (errors.New "nil error and unknown status" [("status", "")])).
Proof.
  split; [exact sample_readable|].
  destruct (empty_response_fails
              (sample_client "" (Some (errors.External "connection refused")))
              sample_heap sample_payload [] None _ _ _ _ _ sample_update None
              sample_readable) as [(rp & hf & Hconv & Hnew) _].
  destruct (empty_response_fails (sample_client "" None)
              sample_heap sample_payload [] None _ _ _ _ _ sample_update None
              sample_readable) as [_ Hfork].
  split.
  - exact (Hnew (Some (errors.External "connection refused")) eq_refl).
  - exact (Hfork None eq_refl).
Defined.

(** X3. Every status that ForkchoiceUpdatedV3 accepts NewPayloadV3 accepts
    too, and ACCEPTED is the one status on which the two tables differ. *)
Theorem status_tables_differ_at_ACCEPTED (resp : engine.ForkChoiceResponse) :
  (ForkchoiceUpdatedV3_isStatusOk resp = true ->
   NewPayloadV3_isStatusOk (engine.PayloadStatus resp) = true) /\
  (NewPayloadV3_isStatusOk (engine.PayloadStatus resp)
   <> ForkchoiceUpdatedV3_isStatusOk resp
   <-> engine.Status (engine.PayloadStatus resp) = "ACCEPTED").
Proof.
  pose proof (NewPayloadV3_isStatusOk_domain (engine.PayloadStatus resp)) as Hn.
  pose proof (ForkchoiceUpdatedV3_isStatusOk_domain resp) as Hf.
  set (s := engine.Status (engine.PayloadStatus resp)) in *.
  assert (s ∈ submitPayload_domain <-> s ∈ updateHead_domain \/ s = "ACCEPTED") as Hiff.
  { unfold submitPayload_domain, updateHead_domain, engine.ACCEPTED.
    rewrite !elem_of_cons, elem_of_nil. tauto. }
  assert (s = "ACCEPTED" -> s ∉ updateHead_domain) as Hacc.
  { intros ->. unfold updateHead_domain, engine.VALID, engine.INVALID, engine.SYNCING.
    rewrite !elem_of_cons, elem_of_nil. intuition discriminate. }
  destruct (NewPayloadV3_isStatusOk _), (ForkchoiceUpdatedV3_isStatusOk resp);
    intuition (try congruence; try discriminate).
Qed.

Lemma status_tables_differ_at_ACCEPTED_witness :
  ForkchoiceUpdatedV3_isStatusOk (engine.MkForkChoiceResponse (status_of "VALID") None) = true /\
  NewPayloadV3_isStatusOk (status_of "VALID") = true.
Proof.
  split; [reflexivity|].
  exact (proj1 (status_tables_differ_at_ACCEPTED
                  (engine.MkForkChoiceResponse (status_of "VALID") None)) eq_refl).
Defined.



(** X5. The converter writes to no storage that existed before the call:
    afterwards every old cell holds what it held, so the input payload
    reads as before, and converting it again succeeds with a payload that
    reads the same. *)
Theorem conversion_leaves_input_intact h ed b g x v w :
  readable h ed b g x v w ->
  exists rp hf,
    ConvertExecutableDataToRethPayloadV3 ed h = Some (rp, hf) /\
    length h <= length hf /\
    (forall a, a < length h -> hf !! a = h !! a) /\
    readable hf ed b g x v w /\
    exists rp' hf',
      ConvertExecutableDataToRethPayloadV3 ed hf = Some (rp', hf') /\
      txs_of hf' (Transactions rp') = Some v /\
      wds_of hf' (Withdrawals rp') = Some w /\
      txs_of hf' (Transactions rp) = Some v /\
      wds_of hf' (Withdrawals rp) = Some w.
Proof.
  intros R. pose proof R as [Hb Hg Hx Hv Hw].
  destruct (Convert_run h ed b g x v w R)
    as (ls & lf & h4 & Hrun & E3 & E4 & Hlen & Hvl & Hcell & Hcopy & Hm).
  assert (extends h (h4 ++ [CPtrs w])) as E
    by (eapply extends_trans; [|apply extends_app]; eauto using extends_trans).
  assert (readable (h4 ++ [CPtrs w]) ed b g x v w) as R'.
  { split; eauto using big_of_extends, u64_of_extends, txs_of_extends, wds_of_extends. }
  destruct (Convert_run _ ed b g x v w R')
    as (ls' & lf' & h4' & Hrun' & E3' & E4' & Hlen' & Hvl' & Hcell' & Hcopy' & Hm').
  assert (extends (h4 ++ [CPtrs w]) (h4' ++ [CPtrs w])) as E'
    by (eapply extends_trans; [|apply extends_app]; eauto using extends_trans).
  eexists _, _. split; [exact Hrun|]. split_and!; try apply E; try done.
  eexists _, _. split; [exact Hrun'|]. split_and!.
  - apply (txs_of_extends h4'); [apply extends_app|].
    exact (copied_txs_read _ _ h4' ls' lf' v Hcell' Hcopy' Hm').
  - unfold wds_of, read_ptrs; simpl.
    rewrite lookup_app_r, Nat.sub_diag by done. apply window_whole.
  - apply (txs_of_extends h4); [eauto using extends_trans, extends_app|].
    exact (copied_txs_read _ _ h4 ls lf v Hcell Hcopy Hm).
  - apply (wds_of_extends (h4 ++ [CPtrs w])); [done|].
    unfold wds_of, read_ptrs; simpl.
    rewrite lookup_app_r, Nat.sub_diag by done. apply window_whole.
Qed.

Lemma conversion_leaves_input_intact_witness :
  readable sample_heap sample_payload (Some 7%Z) (Some 0%Z) None
    [[xaa]; [xbb]] [Some 7; None] /\
  exists rp hf,
    ConvertExecutableDataToRethPayloadV3 sample_payload sample_heap = Some (rp, hf) /\
    take 9 hf = sample_heap.
Proof.
  split; [exact sample_readable|].
  destruct (conversion_leaves_input_intact sample_heap sample_payload _ _ _ _ _
              sample_readable) as (rp & hf & Hrun & _).
  exists rp, hf. split; [done|].
  vm_compute in Hrun. injection Hrun as <- <-. reflexivity.
Defined.

(** X6. The converter copies the ten value fields unchanged, hands on the
    execution witness pointer as it is, and never returns nil Transactions
    or Withdrawals, also when the input's are nil. *)
Theorem conversion_copies_value_fields h ed b g x v w :
  readable h ed b g x v w ->
  exists rp hf,
    ConvertExecutableDataToRethPayloadV3 ed h = Some (rp, hf) /\
    ParentHash rp = engine.ParentHash ed /\
    FeeRecipient rp = engine.FeeRecipient ed /\
    StateRoot rp = engine.StateRoot ed /\
    ReceiptsRoot rp = engine.ReceiptsRoot ed /\
    Random rp = engine.Random ed /\
    Number rp = engine.Number ed /\
    GasLimit rp = engine.GasLimit ed /\
    GasUsed rp = engine.GasUsed ed /\
    Timestamp rp = engine.Timestamp ed /\
    BlockHash rp = engine.BlockHash ed /\
    ExecutionWitness rp = engine.ExecutionWitness ed /\
    Transactions rp <> None /\
    Withdrawals rp <> None.
Proof.
  intros R. destruct (Convert_run h ed b g x v w R) as (ls & lf & h4 & Hrun & _).
  eexists _, _. split; [exact Hrun|]. by split_and!.
Qed.

Lemma conversion_copies_value_fields_witness :
  readable [] bare_payload None None None [] [] /\
  exists rp hf,
    ConvertExecutableDataToRethPayloadV3 bare_payload [] = Some (rp, hf) /\
    Number rp = 6%Z /\
    Transactions rp = Some (Slice 0 0 0) /\
    Withdrawals rp = Some (Slice 1 0 0).
Proof.
  assert (readable [] bare_payload None None None [] []) as R by (split; reflexivity).
  split; [exact R|].
  destruct (conversion_copies_value_fields [] bare_payload _ _ _ _ _ R)
    as (rp & hf & Hrun & _ & _ & _ & _ & _ & Hnum & _).
  exists rp, hf. split; [done|]. split; [exact Hnum|].
  vm_compute in Hrun. injection Hrun as <- <-. split; reflexivity.
Defined.

(** ** Durations of the node configuration *)

Lemma wrap64_range z : reth.int64_range (reth.wrap64 z).
Proof.
  unfold reth.int64_range, reth.wrap64.
  pose proof (Z.mod_pos_bound (z + 2 ^ 63) (2 ^ 64) ltac:(lia)). lia.
Qed.

Lemma wrap64_id z : reth.int64_range z -> reth.wrap64 z = z.
Proof.
  unfold reth.int64_range, reth.wrap64. intros Hz.
  rewrite Z.mod_small by lia. lia.
Qed.

Lemma wrap64_congr z : exists k, (reth.wrap64 z = z + k * 2 ^ 64)%Z.
Proof.
  unfold reth.wrap64. exists (- ((z + 2 ^ 63) / 2 ^ 64))%Z.
  pose proof (Z.div_mod (z + 2 ^ 63) (2 ^ 64) ltac:(lia)). lia.
Qed.

Lemma wrap64_add_l a b : reth.wrap64 (reth.wrap64 a + b) = reth.wrap64 (a + b).
Proof.
  destruct (wrap64_congr a) as [k Hk]. rewrite Hk. unfold reth.wrap64.
  replace (a + k * 2 ^ 64 + b + 2 ^ 63)%Z with (a + b + 2 ^ 63 + k * 2 ^ 64)%Z by lia.
  by rewrite Z.mod_add by lia.
Qed.

(** X7. UnmarshalTOML changes the duration only when it succeeds, and it
    succeeds exactly on a string that ParseDuration accepts and on a table
    that holds an integer (int64 or int) under both 'secs' and 'nanos'. *)
Theorem UnmarshalTOML_succeeds_or_keeps parse d data :
  ((reth.UnmarshalTOML parse d data).2 <> None ->
   (reth.UnmarshalTOML parse d data).1 = d) /\
  ((reth.UnmarshalTOML parse d data).2 = None <->
   (exists s, data = reth.VString s /\ (parse s).2 = None) \/
   (exists m secs nanos,
      data = reth.VTable m /\
      m !! "secs" = Some secs /\ m !! "nanos" = Some nanos /\
      is_Some (reth.as_int64 secs) /\ is_Some (reth.as_int64 nanos))).
Proof.
  destruct data as [s|z|z|m|t]; simpl.
  - destruct (parse s) as [p [e|]] eqn:Hp; simpl.
    + split; [done|]. split; [done|].
      intros [(s' & [= <-] & H)|(m & ? & ? & ? & _)]; [|done].
      rewrite Hp in H. done.
    + split; [done|]. split; [|done]. intros _. left. exists s. by rewrite Hp.
  - split; [done|]. split; [done|]. by intros [(? & ? & _)|(? & ? & ? & ? & _)].
  - split; [done|]. split; [done|]. by intros [(? & ? & _)|(? & ? & ? & ? & _)].
  - destruct (m !! "secs") as [secs|] eqn:Hs;
      [destruct (m !! "nanos") as [nanos|] eqn:Hn;
       [destruct (reth.as_int64 secs) as [a|] eqn:Ha;
        [destruct (reth.as_int64 nanos) as [b|] eqn:Hb|]|]|]; simpl.
    + split; [done|]. split; [|done]. intros _. right.
      exists m, secs, nanos. rewrite Ha, Hb. eauto 10.
    + split; [done|]. split; [done|].
      intros [(? & ? & _)|(m' & s' & n' & [= <-] & Hs' & Hn' & [? Ha'] & [? Hb'])];
        congruence.
    + split; [done|]. split; [done|].
      intros [(? & ? & _)|(m' & s' & n' & [= <-] & Hs' & Hn' & [? Ha'] & [? Hb'])];
        congruence.
    + split; [done|]. split; [done|].
      intros [(? & ? & _)|(m' & s' & n' & [= <-] & Hs' & Hn' & [? Ha'] & [? Hb'])];
        congruence.
    + split; [done|]. split; [done|].
      intros [(? & ? & _)|(m' & s' & n' & [= <-] & Hs' & Hn' & [? Ha'] & [? Hb'])];
        congruence.
  - split; [done|]. split; [done|]. by intros [(? & ? & _)|(? & ? & ? & ? & _)].
Qed.

Lemma UnmarshalTOML_succeeds_or_keeps_witness :
  reth.UnmarshalTOML sample_ParseDuration 42 (reth.VString "ten minutes")
  = (42%Z, Some "invalid duration string: time: invalid duration") /\
  (reth.UnmarshalTOML sample_ParseDuration 42 (reth.VString "ten minutes")).1 = 42%Z.
Proof.
  split; [reflexivity|].
  apply (proj1 (UnmarshalTOML_succeeds_or_keeps sample_ParseDuration 42
                  (reth.VString "ten minutes"))).
  discriminate.
Defined.

(** X8. The errors of a table are reported in a fixed order: a missing
    'secs' before anything about 'nanos', a missing 'nanos' before the type
    of 'secs', and the type of 'secs' before the type of 'nanos'. *)
Theorem UnmarshalTOML_table_error_order parse d (m : gmap string reth.value) :
  (m !! "secs" = None ->
   reth.UnmarshalTOML parse d (reth.VTable m) = (d, Some "missing 'secs' in Duration")) /\
  (is_Some (m !! "secs") -> m !! "nanos" = None ->
   reth.UnmarshalTOML parse d (reth.VTable m) = (d, Some "missing 'nanos' in Duration")) /\
  (forall secs, m !! "secs" = Some secs -> is_Some (m !! "nanos") ->
   reth.as_int64 secs = None ->
   reth.UnmarshalTOML parse d (reth.VTable m)
   = (d, Some "invalid type for 'secs' in Duration")) /\
  (forall secs nanos, m !! "secs" = Some secs -> m !! "nanos" = Some nanos ->
   is_Some (reth.as_int64 secs) -> reth.as_int64 nanos = None ->
   reth.UnmarshalTOML parse d (reth.VTable m)
   = (d, Some "invalid type for 'nanos' in Duration")).
Proof.
  split_and!.
  - intros Hs. simpl. by rewrite Hs.
  - intros [secs Hs] Hn. simpl. by rewrite Hs, Hn.
  - intros secs Hs [nanos Hn] Ha. simpl. by rewrite Hs, Hn, Ha.
  - intros secs nanos Hs Hn [a Ha] Hb. simpl. by rewrite Hs, Hn, Ha, Hb.
Qed.

(** A table whose 'secs' is a string and which has no 'nanos': the missing
    key is what is reported. *)
Lemma UnmarshalTOML_table_error_order_witness :
  reth.UnmarshalTOML sample_ParseDuration 42
    (reth.VTable (<["secs" := reth.VString "1"]> ∅))
  = (42%Z, Some "missing 'nanos' in Duration").
Proof.
  apply (proj1 (proj2 (UnmarshalTOML_table_error_order sample_ParseDuration 42
                         (<["secs" := reth.VString "1"]> ∅)))).
  - by eexists.
  - reflexivity.
Defined.

(** X9. A table with integers a under 'secs' and b under 'nanos', each an
    int64 or an int, sets the duration to a * 10^9 + b nanoseconds in int64
    arithmetic, which is a * 10^9 + b itself when that is an int64.  The
    duration held before and the other keys of the table do not matter. *)
Theorem UnmarshalTOML_table_value parse d (m : gmap string reth.value) secs nanos a b :
  m !! "secs" = Some secs -> m !! "nanos" = Some nanos ->
  reth.as_int64 secs = Some a -> reth.as_int64 nanos = Some b ->
  reth.UnmarshalTOML parse d (reth.VTable m)
  = (reth.wrap64 (a * 10 ^ 9 + b), None) /\
  (reth.int64_range (a * 10 ^ 9 + b) ->
   reth.UnmarshalTOML parse d (reth.VTable m) = ((a * 10 ^ 9 + b)%Z, None)).
Proof.
  intros Hs Hn Ha Hb.
  assert (reth.UnmarshalTOML parse d (reth.VTable m)
          = (reth.wrap64 (a * 10 ^ 9 + b), None)) as Hrun.
  { simpl. rewrite Hs, Hn, Ha, Hb. by rewrite wrap64_add_l. }
  split; [done|]. intros Hr. by rewrite Hrun, wrap64_id.
Qed.

Lemma UnmarshalTOML_table_value_witness :
  reth.UnmarshalTOML sample_ParseDuration 42 (reth.VTable sample_table)
  = (1500000000%Z, None).
Proof.
  apply (proj2 (UnmarshalTOML_table_value sample_ParseDuration 42 sample_table
                  (reth.VInt64 1) (reth.VInt 500000000) 1 500000000
                  eq_refl eq_refl eq_refl eq_refl)).
  unfold reth.int64_range. lia.
Defined.

(** X10. A table in normal form, with 0 <= nanos < 10^9 and a total that is
    an int64, can be read back from the duration it sets: the seconds are
    the duration divided by 10^9 and the nanoseconds the remainder, so two
    such tables that set the same duration hold the same numbers. *)
Theorem UnmarshalTOML_table_round_trip parse d (m : gmap string reth.value) secs nanos a b :
  m !! "secs" = Some secs -> m !! "nanos" = Some nanos ->
  reth.as_int64 secs = Some a -> reth.as_int64 nanos = Some b ->
  (0 <= b < 10 ^ 9)%Z -> reth.int64_range (a * 10 ^ 9 + b) ->
  (reth.UnmarshalTOML parse d (reth.VTable m)).2 = None /\
  ((reth.UnmarshalTOML parse d (reth.VTable m)).1 / reth.Second = a)%Z /\
  ((reth.UnmarshalTOML parse d (reth.VTable m)).1 mod reth.Second = b)%Z.
Proof.
  intros Hs Hn Ha Hb Hb9 Hr.
  assert (reth.UnmarshalTOML parse d (reth.VTable m) = ((a * 10 ^ 9 + b)%Z, None)) as ->.
  { simpl. rewrite Hs, Hn, Ha, Hb. by rewrite wrap64_add_l, wrap64_id. }
  simpl. unfold reth.Second. change 1000000000%Z with (10 ^ 9)%Z.
  split; [done|]. split.
  - rewrite Z.div_add_l by lia. rewrite Z.div_small by lia. lia.
  - rewrite Z.add_comm, Z.mod_add by lia. by apply Z.mod_small.
Qed.

Lemma UnmarshalTOML_table_round_trip_witness :
  ((reth.UnmarshalTOML sample_ParseDuration 42 (reth.VTable sample_table)).1
   / reth.Second = 1)%Z /\
  ((reth.UnmarshalTOML sample_ParseDuration 42 (reth.VTable sample_table)).1
   mod reth.Second = 500000000)%Z.
Proof.
  apply (UnmarshalTOML_table_round_trip sample_ParseDuration 42 sample_table
           (reth.VInt64 1) (reth.VInt 500000000) 1 500000000
           eq_refl eq_refl eq_refl eq_refl).
  - lia.
  - unfold reth.int64_range. lia.
Defined.

(** X11. Overflow is not reported: when a * 10^9 + b is not an int64 the
    call still succeeds, and the duration it sets is an int64 that differs
    from a * 10^9 + b by a multiple of 2^64. *)
Theorem UnmarshalTOML_overflow_silent parse d (m : gmap string reth.value) secs nanos a b :
  m !! "secs" = Some secs -> m !! "nanos" = Some nanos ->
  reth.as_int64 secs = Some a -> reth.as_int64 nanos = Some b ->
  ~ reth.int64_range (a * 10 ^ 9 + b) ->
  exists d',
    reth.UnmarshalTOML parse d (reth.VTable m) = (d', None) /\
    reth.int64_range d' /\
    d' <> (a * 10 ^ 9 + b)%Z /\
    exists k, (d' = a * 10 ^ 9 + b + k * 2 ^ 64)%Z.
Proof.
  intros Hs Hn Ha Hb Hr. exists (reth.wrap64 (a * 10 ^ 9 + b)). split_and!.
  - simpl. rewrite Hs, Hn, Ha, Hb. by rewrite wrap64_add_l.
  - apply wrap64_range.
  - intros Heq. apply Hr. rewrite <- Heq. apply wrap64_range.
  - apply wrap64_congr.
Qed.

(** Ten thousand million seconds do not fit: the duration comes out
    negative. *)
Lemma UnmarshalTOML_overflow_silent_witness :
  ~ reth.int64_range (10000000000 * 10 ^ 9 + 0) /\
  exists d',
    reth.UnmarshalTOML sample_ParseDuration 42 (reth.VTable overflow_table)
    = (d', None) /\ (d' < 0)%Z.
Proof.
  assert (~ reth.int64_range (10000000000 * 10 ^ 9 + 0)) as Hr
    by (unfold reth.int64_range; lia).
  split; [exact Hr|].
  destruct (UnmarshalTOML_overflow_silent sample_ParseDuration 42 overflow_table
              (reth.VInt64 10000000000) (reth.VInt64 0) 10000000000 0
              eq_refl eq_refl eq_refl eq_refl Hr) as (d' & Hrun & _).
  exists d'. split; [done|].
  vm_compute in Hrun. injection Hrun as <-. reflexivity.
Defined.

(** ** Deployment of the gas contracts: the loops *)

Lemma deployGasPumps_range_run {W B} (env : app.Env W B) def omni chains w :
  let res := app.deployGasPumps_range env def omni chains w in
  let others := filter (fun c => app.ID c <> app.ID omni) chains in
  station_deploys res.2 = [] /\ sends res.2 = [] /\
  match res.1.1 with
  | app.Ok None =>
      backend_calls res.2 = map app.ID others /\
      length (pump_deploys res.2) = length others
  | app.Ok (Some e) =>
      exists pre c post err msg attrs,
        others = pre ++ c :: post /\
        backend_calls res.2 = map app.ID (pre ++ [c]) /\
        length pre <= length (pump_deploys res.2) <= S (length pre) /\
        (msg = "backend" \/ msg = "deploy") /\
        e = errors.Wrap err msg (("chain", app.Name c) :: attrs)
  | app.Panic _ => False
  end.
Proof.
  revert w. induction chains as [|c rest IH]; intros w; cbn zeta.
  - simpl. auto.
  - cbn [app.deployGasPumps_range].
    destruct (decide (app.ID c = app.ID omni)) as [Heq|Hne].
    { rewrite filter_cons_False by (intros H; exact (H Heq)). apply IH. }
    rewrite filter_cons_True by exact Hne.
    unfold app.gbind, app.ext, app.log_Info, app.gret.
    destruct (app.Backend env (app.ID c) w) as [[b oe] w1]; cbn.
    destruct oe as [err|]; cbn.
    { split; [done|]. split; [done|].
      exists [], c, (filter (fun c => app.ID c <> app.ID omni) rest), err, "backend", [].
      simpl. repeat split; auto. }
    destruct (app.gaspump_DeployIfNeeded env (app.Testnet_Network def) b w1)
      as [[[addr rc] oe] w2]; cbn.
    destruct oe as [err|]; cbn.
    { split; [done|]. split; [done|].
      exists [], c, (filter (fun c => app.ID c <> app.ID omni) rest), err, "deploy",
        [("tx", app.maybeTxHash env rc)].
      simpl. repeat split; auto. }
    specialize (IH w2). cbn zeta in IH.
    destruct (app.deployGasPumps_range env def omni rest w2) as [[r w3] t]; cbn in *.
    destruct IH as (Hs & Hd & IH). split; [done|]. split; [done|].
    destruct r as [[e|]|m]; auto.
    + destruct IH as (pre & c' & post & err & msg & attrs & -> & Hb & Hl & Hm & ->).
      exists (c :: pre), c', post, err, msg, attrs.
      split; [done|]. split.
      { unfold backend_calls in *. simpl. by rewrite Hb. }
      split; [|done]. unfold pump_deploys in *. simpl. lia.
    + destruct IH as [Hb Hl]. split.
      * unfold backend_calls in *. simpl. by rewrite Hb.
      * unfold pump_deploys in *. simpl. by rewrite Hl.
Qed.

Lemma deployGasStation_range_run {W B} (env : app.Env W B) net omni acc chains :
  app.deployGasStation_range env net omni acc chains =
  acc ++ map (fun c => app.MkGasPump (app.ID c) (app.contracts_GasPump env (app.net_ID net)))
           (filter (fun c => app.ID c <> app.ID omni) chains).
Proof.
  revert acc. induction chains as [|c rest IH]; intros acc; simpl.
  - by rewrite app_nil_r.
  - destruct (decide (app.ID c = app.ID omni)) as [Heq|Hne].
    + rewrite filter_cons_False by (intros H; exact (H Heq)). apply IH.
    + rewrite filter_cons_True by exact Hne. rewrite IH. simpl.
      by rewrite <- app_assoc.
Qed.

(** What one run of deployGasStation does, when the network has an Omni
    EVM chain. *)
Lemma deployGasStation_run {W B} (env : app.Env W B) def omni w :
  app.OmniEVMChain (app.network def) = Some omni ->
  let res := app.deployGasStation env def w in
  let pumps :=
    map (fun c => app.MkGasPump (app.ID c)
                    (app.contracts_GasPump env (app.net_ID (app.network def))))
      (other_chains (app.network def) omni) in
  backend_calls res.2 = [app.ID omni] /\ pump_deploys res.2 = [] /\ sends res.2 = [] /\
  (station_deploys res.2 = [] \/ station_deploys res.2 = [pumps]) /\
  (res.1.1 = app.Ok None -> station_deploys res.2 = [pumps]) /\
  (forall m, res.1.1 = app.Panic m ->
     app.EVMChains (app.network def) = [] /\
     (app.Backend env (app.ID omni) w).1.2 = None).
Proof.
  intros Ho. unfold app.deployGasStation. rewrite Ho. cbn zeta.
  unfold app.gbind, app.ext, app.log_Info, app.gret, app.gpanic.
  destruct (app.Backend env (app.ID omni) w) as [[b oe] w1]; cbn.
  destruct oe as [err|]; cbn.
  { repeat split; auto; discriminate. }
  destruct (decide (length (app.EVMChains (app.network def)) = 0)) as [H0|H0]; cbn.
  { repeat split; auto; try discriminate.
    by apply length_zero_iff_nil. }
  rewrite deployGasStation_range_run. cbn.
  destruct (app.gasstation_DeployIfNeeded env _ b _ w1) as [[[addr rc] oe] w2]; cbn.
  destruct oe as [err|]; cbn; repeat split; auto; discriminate.
Qed.

(** What one run of fundGasStation does, when the network has an Omni EVM
    chain. *)
Lemma fundGasStation_run {W B} (env : app.Env W B) def omni w :
  app.OmniEVMChain (app.network def) = Some omni ->
  let res := app.fundGasStation env def w in
  let funder :=
    if app.IsEphemeral env (app.net_ID (app.network def))
    then app.anvil_DevAccount8 env else app.eoa_Funder env in
  let cand :=
    app.MkTxCandidate (app.contracts_GasStation env (app.net_ID (app.network def)))
      0%Z 1000000000000000000000%Z in
  backend_calls res.2 = [app.ID omni] /\ pump_deploys res.2 = [] /\
  station_deploys res.2 = [] /\
  (sends res.2 = [] \/ sends res.2 = [(funder, cand)]) /\
  (res.1.1 = app.Ok None ->
     sends res.2 = [(funder, cand)] /\
     let bk := app.Backend env (app.ID omni) w in
     bk.1.2 = None /\
     let sent := app.Send env bk.1.1 funder cand bk.2 in
     sent.1.2 = None /\
     exists rec, sent.1.1.2 = Some rec /\ app.Status rec = app.ReceiptStatusSuccessful) /\
  (forall m, res.1.1 = app.Panic m ->
     let bk := app.Backend env (app.ID omni) w in
     let sent := app.Send env bk.1.1 funder cand bk.2 in
     sent.1.2 = None /\ sent.1.1.2 = None).
Proof.
  intros Ho. unfold app.fundGasStation. rewrite Ho. cbn zeta.
  unfold app.gbind, app.ext, app.log_Info, app.gret, app.gpanic.
  change (1000 * app.Ether)%Z with 1000000000000000000000%Z.
  destruct (app.Backend env (app.ID omni) w) as [[b oe] w1]; cbn.
  destruct oe as [err|]; cbn.
  { repeat split; auto; discriminate. }
  destruct (app.Send env b _ _ w1) as [[[tx rc] oe] w2]; cbn.
  destruct oe as [err|]; cbn.
  { repeat split; auto; discriminate. }
  destruct rc as [rec|]; cbn.
  2: { repeat split; auto; discriminate. }
  destruct (decide (app.Status rec <> app.ReceiptStatusSuccessful)) as [Hs|Hs]; cbn.
  { repeat split; auto; discriminate. }
  repeat split; auto; try discriminate.
  exists rec. split; [done|]. by apply dec_stable.
Qed.

(** What one run of deployGasPumps does, when the network has an Omni EVM
    chain. *)
Lemma deployGasPumps_run {W B} (env : app.Env W B) def omni w :
  app.OmniEVMChain (app.network def) = Some omni ->
  let res := app.deployGasPumps env def w in
  let others := other_chains (app.network def) omni in
  station_deploys res.2 = [] /\ sends res.2 = [] /\
  match res.1.1 with
  | app.Ok None =>
      backend_calls res.2 = map app.ID others /\
      length (pump_deploys res.2) = length others
  | app.Ok (Some e) =>
      exists pre c post err msg attrs,
        others = pre ++ c :: post /\
        backend_calls res.2 = map app.ID (pre ++ [c]) /\
        length pre <= length (pump_deploys res.2) <= S (length pre) /\
        (msg = "backend" \/ msg = "deploy") /\
        e = errors.Wrap err msg (("chain", app.Name c) :: attrs)
  | app.Panic _ => False
  end.
Proof.
  intros Ho. unfold app.deployGasPumps. rewrite Ho.
  apply deployGasPumps_range_run.
Qed.

(** Without an Omni EVM chain the deployment does nothing. *)
Lemma DeployGasApp_no_omni {W B} (env : app.Env W B) def w :
  app.OmniEVMChain (app.network def) = None ->
  app.DeployGasApp env def w =
  ((app.Ok (Some (errors.Wrap (errors.New "no omni evm chain" []) "deploy gas pumps" [])),
    w), []).
Proof.
  intros Ho. unfold app.DeployGasApp, app.deployGasPumps, app.gbind, app.gret.
  rewrite Ho. reflexivity.
Qed.

(** ** Deployment of the gas contracts: results *)





(** X14. deployGasStation deploys the gas station at most once and
    registers with it one gas pump for every EVM chain other than the Omni
    EVM chain, in the order of the network, all at the one pump address of
    the network; the Omni EVM chain itself gets no pump.  When it returns
    nil the station was deployed.  The only backend it asks for is that of
    the Omni EVM chain; it deploys no pump and sends no transaction. *)
Theorem deployGasStation_registers_other_chains {W B} (env : app.Env W B) def omni w :
  app.OmniEVMChain (app.network def) = Some omni ->
  let res := app.deployGasStation env def w in
  (forall pumps, pumps ∈ station_deploys res.2 ->
     map app.ChainID pumps = map app.ID (other_chains (app.network def) omni) /\
     Forall (fun p => app.Addr p = app.contracts_GasPump env (app.net_ID (app.network def)))
       pumps /\
     (app.ID omni ∉ map app.ChainID pumps)) /\
  length (station_deploys res.2) <= 1 /\
  (res.1.1 = app.Ok None -> length (station_deploys res.2) = 1) /\
  backend_calls res.2 = [app.ID omni] /\ pump_deploys res.2 = [] /\ sends res.2 = [].
Proof.
  intros Ho. cbn zeta.
  destruct (deployGasStation_run env def omni w Ho) as (Hb & Hp & Hs & Hst & Hok & _).
  assert (Hmap : forall l : list app.Chain,
    map app.ChainID
      (map (fun c => app.MkGasPump (app.ID c)
                       (app.contracts_GasPump env (app.net_ID (app.network def)))) l)
    = map app.ID l).
  { intros l. rewrite <- list_fmap_compose. done. }
  split.
  { intros pumps Hin.
    destruct Hst as [Hst|Hst]; rewrite Hst in Hin; [by apply elem_of_nil in Hin|].
    apply list_elem_of_singleton in Hin as ->.
    rewrite Hmap. split; [done|]. split.
    - apply Forall_fmap, Forall_true. done.
    - intros Hin. apply list_elem_of_fmap in Hin as (c & Hc & Hin).
      apply list_elem_of_filter in Hin as [Hne _]. by apply Hne. }
  split.
  { destruct Hst as [-> | ->]; simpl; lia. }
  split; [|done].
  intros Hr. by rewrite (Hok Hr).
Qed.

Lemma deployGasStation_registers_other_chains_witness :
  let res := app.deployGasStation (sample_env 0 1) sample_def 0 in
  res.1.1 = app.Ok None /\
  station_deploys res.2 = [[app.MkGasPump 1%Z 500%Z; app.MkGasPump 2%Z 500%Z]] /\
  length (station_deploys res.2) = 1.
Proof.
  destruct (deployGasStation_registers_other_chains
              (sample_env 0 1) sample_def sample_omniEVM 0 eq_refl)
    as (_ & _ & Hok & _).
  split; [reflexivity|]. split; [reflexivity|]. exact (Hok eq_refl).
Defined.

(** X15. fundGasStation sends at most one transaction: 1000 OMNI (10^21
    wei) to the gas station address of the network with gas limit 0, from
    the dev account 8 on an ephemeral network and from the funder account
    otherwise.  It returns nil only when that transaction was sent on the
    backend of the Omni EVM chain without error and its receipt has the
    status of success.  The only backend it asks for is that of the Omni
    EVM chain, and it deploys nothing. *)
Theorem fundGasStation_sends_once {W B} (env : app.Env W B) def omni w :
  app.OmniEVMChain (app.network def) = Some omni ->
  let res := app.fundGasStation env def w in
  let funder :=
    if app.IsEphemeral env (app.net_ID (app.network def))
    then app.anvil_DevAccount8 env else app.eoa_Funder env in
  let cand :=
    app.MkTxCandidate (app.contracts_GasStation env (app.net_ID (app.network def)))
      0%Z (10 ^ 21)%Z in
  (forall s, s ∈ sends res.2 -> s = (funder, cand)) /\
  length (sends res.2) <= 1 /\
  (res.1.1 = app.Ok None ->
     length (sends res.2) = 1 /\
     let bk := app.Backend env (app.ID omni) w in
     let sent := app.Send env bk.1.1 funder cand bk.2 in
     bk.1.2 = None /\ sent.1.2 = None /\
     exists rec, sent.1.1.2 = Some rec /\ app.Status rec = 1%Z) /\
  backend_calls res.2 = [app.ID omni] /\ pump_deploys res.2 = [] /\
  station_deploys res.2 = [].
Proof.
  intros Ho. cbn zeta.
  change (10 ^ 21)%Z with 1000000000000000000000%Z.
  destruct (fundGasStation_run env def omni w Ho) as (Hb & Hp & Hst & Hs & Hok & _).
  cbn zeta in Hok.
  split.
  { intros s Hin. destruct Hs as [Hs|Hs]; rewrite Hs in Hin.
    - by apply elem_of_nil in Hin.
    - by apply list_elem_of_singleton in Hin. }
  split.
  { destruct Hs as [-> | ->]; simpl; lia. }
  split; [|done].
  intros Hr. destruct (Hok Hr) as (Hsd & Hbk & Hse & Hrec).
  rewrite Hsd. done.
Qed.

Lemma fundGasStation_sends_once_witness :
  let res := app.fundGasStation (sample_env 0 1) sample_def 0 in
  res.1.1 = app.Ok None /\
  sends res.2 = [(8%Z, app.MkTxCandidate 600%Z 0%Z 1000000000000000000000%Z)] /\
  length (sends res.2) <= 1.
Proof.
  destruct (fundGasStation_sends_once (sample_env 0 1) sample_def sample_omniEVM 0 eq_refl)
    as (_ & Hle & _).
  split; [reflexivity|]. split; [reflexivity|]. exact Hle.
Defined.




(** X18. DeployGasApp reaches outside exactly when the network has an Omni
    EVM chain.  Without one it makes no call at all, leaves the world as it
    was and returns the error "no omni evm chain" wrapped as
    "deploy gas pumps"; with one it asks for at least one backend. *)
Theorem DeployGasApp_idle_iff_no_omni {W B} (env : app.Env W B) def w :
  ((app.DeployGasApp env def w).2 = [] <->
   app.OmniEVMChain (app.network def) = None) /\
  match app.OmniEVMChain (app.network def) with
  | None =>
      (app.DeployGasApp env def w).1 =
      (app.Ok (Some (errors.Wrap (errors.New "no omni evm chain" [])
                       "deploy gas pumps" [])), w)
  | Some _ => backend_calls (app.DeployGasApp env def w).2 <> []
  end.
Proof.
  destruct (app.OmniEVMChain (app.network def)) as [omni|] eqn:Ho.
  2: { rewrite (DeployGasApp_no_omni env def w Ho). done. }
  assert (Hcalls : backend_calls (app.DeployGasApp env def w).2 <> []).
  { unfold app.DeployGasApp, app.gbind.
    pose proof (deployGasPumps_run env def omni w Ho) as H1. cbn zeta in H1.
    destruct (app.deployGasPumps env def w) as [[r1 w1] t1]. cbn [fst snd] in H1.
    destruct H1 as (_ & _ & H1).
    destruct r1 as [[e1|]|m1]; [| |done].
    { destruct H1 as (pre & c & post & err & msg & attrs & _ & Hb & _).
      cbn -[backend_calls]. rewrite app_nil_r, Hb, fmap_app.
      intros H. apply (f_equal length) in H. rewrite length_app in H. simpl in H. lia. }
    pose proof (deployGasStation_run env def omni w1 Ho) as H2. cbn zeta in H2.
    destruct (app.deployGasStation env def w1) as [[r2 w2] t2]. cbn [fst snd] in H2.
    destruct H2 as (Hb2 & _).
    assert (Hne : forall t3, backend_calls (t1 ++ t2 ++ t3) <> []).
    { intros t3. unfold backend_calls in *. rewrite !omap_app, Hb2.
      intros H. apply (f_equal length) in H. rewrite !length_app in H. simpl in H. lia. }
    destruct r2 as [[e2|]|m2]; cbn -[backend_calls];
      [apply Hne| |rewrite <- (app_nil_r t2); apply Hne].
    destruct (app.fundGasStation env def w2) as [[r3 w3] t3].
    destruct r3 as [[e3|]|m3]; cbn -[backend_calls]; apply Hne. }
  split; [|done]. split; [|done].
  intros Hnil. rewrite Hnil in Hcalls. done.
Qed.

(** ** The gas pump tests: the loops *)

Lemma testGasPumps_tests_run {W B P O} (tenv : app.TestEnv W B P O) chain p tests o w :
  let res := app.testGasPumps_tests tenv chain p (Some o) tests w in
  test_backends res.2 = [] /\ pump_bindings res.2 = [] /\
  fillups res.2 `prefix_of` map fillup_of tests /\
  match res.1.1 with
  | app.Ok None => fillups res.2 = map fillup_of tests
  | app.Ok (Some _) => True
  | app.Panic _ => False
  end.
Proof.
  revert o w. induction tests as [|test rest IH]; intros o w; cbn zeta.
  - simpl. repeat split; auto.
  - cbn [app.testGasPumps_tests].
    unfold app.gbind, app.ext, app.gret.
    set (o' := app.MkTransactOpts (app.opts_rest o) (Some (app.AmountETH test))).
    destruct (app.FillUp tenv p o' (app.Recipient test) w) as [[tx oe] w1].
    cbn [fst snd].
    destruct oe as [err|]; cbn [fst snd].
    { split; [done|]. split; [done|]. split; [|done].
      simpl. apply prefix_cons, prefix_nil. }
    specialize (IH o' w1). cbn zeta in IH.
    destruct (app.testGasPumps_tests tenv chain p (Some o') rest w1) as [[r w2] t].
    cbn [fst snd] in *. destruct IH as (Hb & Hp & Hpre & IH).
    split; [exact Hb|]. split; [exact Hp|]. split.
    + simpl. by apply prefix_cons.
    + destruct r as [[e|]|m]; auto. simpl. by rewrite IH.
Qed.

Lemma gbind_ext_run {W C A R} (c : C) (f : W -> A * W) (k : A -> app.G W C R) w :
  app.gbind (app.ext c f) k w = ((k (f w).1 (f w).2).1, c :: (k (f w).1 (f w).2).2).
Proof. reflexivity. Qed.

Lemma gbind_run {W C A R} (c : app.G W C A) (k : A -> app.G W C R) w :
  app.gbind c k w =
  match c w with
  | ((app.Ok a, w'), t) => ((k a w').1, t ++ (k a w').2)
  | ((app.Panic m, w'), t) => ((app.Panic m, w'), t)
  end.
Proof. reflexivity. Qed.

Lemma testGasPumps_range_run {W B P O} (tenv : app.TestEnv W B P O)
    omni addr payor chains w :
  let res := app.testGasPumps_range tenv omni addr payor chains w in
  let others := filter (fun c => app.ID c <> app.ID omni) chains in
  test_backends res.2 `prefix_of` map app.ID others /\
  Forall (fun a => a = addr) (pump_bindings res.2) /\
  fillups res.2 `prefix_of` fillups_on others /\
  match res.1.1 with
  | app.Ok None =>
      test_backends res.2 = map app.ID others /\ fillups res.2 = fillups_on others
  | app.Ok (Some _) => test_backends res.2 <> []
  | app.Panic _ => ~ BindOpts_has_opts tenv
  end.
Proof.
  revert w. induction chains as [|c rest IH]; intros w; cbn zeta.
  - simpl. repeat split; auto.
  - cbn [app.testGasPumps_range].
    destruct (decide (app.ID c = app.ID omni)) as [Heq|Hne].
    { rewrite filter_cons_False by (intros H; exact (H Heq)). apply IH. }
    rewrite filter_cons_True by exact Hne.
    rewrite gbind_ext_run.
    destruct (app.Backend (app.base tenv) (app.ID c) w) as [[b oe] w1].
    cbn [fst snd].
    destruct oe as [err|].
    { cbn. split; [apply prefix_cons, prefix_nil|]. split; [by repeat constructor|].
      split; [apply prefix_nil|done]. }
    rewrite gbind_ext_run.
    destruct (app.bindings_NewOmniGasPump tenv addr b w1) as [[p oe] w2].
    cbn [fst snd].
    destruct oe as [err|].
    { cbn. split; [apply prefix_cons, prefix_nil|]. split; [by repeat constructor|].
      split; [apply prefix_nil|done]. }
    rewrite gbind_ext_run.
    destruct (app.BindOpts tenv b payor w2) as [[oo oe] w3] eqn:Hbind.
    cbn [fst snd].
    destruct oe as [err|].
    { cbn. split; [apply prefix_cons, prefix_nil|]. split; [by repeat constructor|].
      split; [apply prefix_nil|done]. }
    destruct oo as [o|].
    2: { cbn. split; [apply prefix_cons, prefix_nil|]. split; [by repeat constructor|].
         split; [apply prefix_nil|].
         intros Hopts. specialize (Hopts b payor w2). rewrite Hbind in Hopts.
         by apply Hopts. }
    rewrite gbind_run.
    pose proof (testGasPumps_tests_run tenv c p app.GasPumpTests o w3) as Hin.
    cbn zeta in Hin.
    destruct (app.testGasPumps_tests tenv c p (Some o) app.GasPumpTests w3)
      as [[r4 w4] t4].
    cbn [fst snd] in Hin. destruct Hin as (Hb4 & Hp4 & Hpre4 & Hin).
    change (fillups_on (c :: filter (fun c => app.ID c <> app.ID omni) rest))
      with (map fillup_of app.GasPumpTests
            ++ fillups_on (filter (fun c => app.ID c <> app.ID omni) rest)).
    destruct r4 as [[e|]|m]; [| |done].
    { cbn [fst snd app.gret].
      unfold test_backends, pump_bindings, fillups in *.
      rewrite !app_nil_r. cbn -[fillups_on fillup_of app.GasPumpTests filter].
      rewrite Hb4, Hp4.
      split; [apply prefix_cons, prefix_nil|]. split; [by repeat constructor|].
      split; [by apply prefix_app_r|]. done. }
    specialize (IH w4). cbn zeta in IH.
    destruct (app.testGasPumps_range tenv omni addr payor rest w4) as [[r5 w5] t5].
    cbn [fst snd] in *. destruct IH as (Hb5 & Hp5 & Hpre5 & IH).
    unfold test_backends, pump_bindings, fillups in *.
    cbn -[fillups_on fillup_of app.GasPumpTests filter].
    rewrite !omap_app, Hb4, Hp4, Hin. cbn [app].
    split; [by apply prefix_cons|]. split; [by constructor|].
    split; [by apply prefix_app|].
    destruct r5 as [[e|]|m]; [done| |done].
    destruct IH as [-> ->]. done.
Qed.

Lemma length_fillups_on (l : list app.Chain) : length (fillups_on l) = 3 * length l.
Proof.
  unfold fillups_on. induction l as [|c l IHl]; [done|].
  cbn [flat_map length]. rewrite length_app, IHl. simpl. lia.
Qed.

(** ** The gas pump tests: results *)




